(** * drone-cache: the cache plugin ([plugin/plugin.go])

    A shallow embedding of the plugin's key derivation ([hash]), of the two
    per-mount passes ([processRebuild], [processRestore]) and of the entry
    point ([Exec]), together with the parts of Go's standard library they
    call: [crypto/md5], [fmt.Sprintf "%x"], [strings.HasPrefix] and
    [path/filepath.Join]. *)

From Stdlib Require Import ZArith List Bool Lia Arith.
From Stdlib.Strings Require Import String Ascii Byte.
Import ListNotations.

Local Open Scope Z_scope.

(** ** Bytes and Go strings

    A Go string is a sequence of bytes.  Strings are [String.string]; the
    byte view used by the hasher is [list_byte_of_string]. *)

Definition byte_to_Z (b : byte) : Z := Z.of_N (Byte.to_N b).

Definition byte_of_Z (z : Z) : byte :=
  match Byte.of_N (Z.to_N (z mod 256)) with
  | Some b => b
  | None => x00
  end.

(** ** crypto/md5

    The digest of Go's [crypto/md5]: the four state words, the pending bytes
    of an incomplete block ([x[:nx]] in Go) and the number of bytes written
    so far (a [uint64]).  32-bit words are integers in [0, 2^32) with the
    wrap-around written out. *)

Module md5.

Definition Size : nat := 16.
Definition BlockSize : nat := 64.

Definition add32 (x y : Z) : Z := (x + y) mod 2 ^ 32.

(** [bits.RotateLeft32] *)
Definition RotateLeft32 (x k : Z) : Z :=
  Z.lor (Z.shiftl x k mod 2 ^ 32) (Z.shiftr x (32 - k)).

(** [^x] on a [uint32] *)
Definition not32 (x : Z) : Z := Z.lxor x 0xffffffff.

(** [binary.LittleEndian.Uint32] on the first four bytes of [q] *)
Definition LEUint32 (q : list byte) : Z :=
  match q with
  | b0 :: b1 :: b2 :: b3 :: _ =>
      Z.lor (Z.lor (byte_to_Z b0) (Z.shiftl (byte_to_Z b1) 8))
            (Z.lor (Z.shiftl (byte_to_Z b2) 16) (Z.shiftl (byte_to_Z b3) 24))
  | _ => 0
  end.

(** [binary.LittleEndian.PutUint32] and [PutUint64], as the bytes written *)
Definition PutUint32 (v : Z) : list byte :=
  [byte_of_Z v; byte_of_Z (Z.shiftr v 8);
   byte_of_Z (Z.shiftr v 16); byte_of_Z (Z.shiftr v 24)].

Definition PutUint64 (v : Z) : list byte :=
  PutUint32 (v mod 2 ^ 32) ++ PutUint32 (Z.shiftr v 32).

(** The sine table: [floor (2^32 * |sin (i + 1)|)]. *)
Definition K : list Z :=
  [ 0xd76aa478; 0xe8c7b756; 0x242070db; 0xc1bdceee;
    0xf57c0faf; 0x4787c62a; 0xa8304613; 0xfd469501;
    0x698098d8; 0x8b44f7af; 0xffff5bb1; 0x895cd7be;
    0x6b901122; 0xfd987193; 0xa679438e; 0x49b40821;
    0xf61e2562; 0xc040b340; 0x265e5a51; 0xe9b6c7aa;
    0xd62f105d; 0x02441453; 0xd8a1e681; 0xe7d3fbc8;
    0x21e1cde6; 0xc33707d6; 0xf4d50d87; 0x455a14ed;
    0xa9e3e905; 0xfcefa3f8; 0x676f02d9; 0x8d2a4c8a;
    0xfffa3942; 0x8771f681; 0x6d9d6122; 0xfde5380c;
    0xa4beea44; 0x4bdecfa9; 0xf6bb4b60; 0xbebfbc70;
    0x289b7ec6; 0xeaa127fa; 0xd4ef3085; 0x04881d05;
    0xd9d4d039; 0xe6db99e5; 0x1fa27cf8; 0xc4ac5665;
    0xf4292244; 0x432aff97; 0xab9423a7; 0xfc93a039;
    0x655b59c3; 0x8f0ccc92; 0xffeff47d; 0x85845dd1;
    0x6fa87e4f; 0xfe2ce6e0; 0xa3014314; 0x4e0811a1;
    0xf7537e82; 0xbd3af235; 0x2ad7d2bb; 0xeb86d391 ].

(** Per-round shift amounts. *)
Definition shifts : list Z :=
  [ 7; 12; 17; 22; 7; 12; 17; 22; 7; 12; 17; 22; 7; 12; 17; 22;
    5; 9; 14; 20; 5; 9; 14; 20; 5; 9; 14; 20; 5; 9; 14; 20;
    4; 11; 16; 23; 4; 11; 16; 23; 4; 11; 16; 23; 4; 11; 16; 23;
    6; 10; 15; 21; 6; 10; 15; 21; 6; 10; 15; 21; 6; 10; 15; 21 ].

(** The state words [s[0..3]]. *)
Record state : Type := mkState { sa : Z; sb : Z; sc : Z; sd : Z }.

(** The round function and the message-word index of step [i]. *)
Definition mix (i : nat) (b c d : Z) : Z :=
  if (i <? 16)%nat then Z.lxor (Z.land (Z.lxor c d) b) d
  else if (i <? 32)%nat then Z.lxor (Z.land (Z.lxor b c) d) c
  else if (i <? 48)%nat then Z.lxor (Z.lxor b c) d
  else Z.lxor c (Z.lor b (not32 d)).

Definition word_index (i : nat) : nat :=
  if (i <? 16)%nat then i
  else if (i <? 32)%nat then (5 * i + 1) mod 16
  else if (i <? 48)%nat then (3 * i + 5) mod 16
  else (7 * i) mod 16.

(** One of the 64 steps of [blockGeneric]:
    [a = b + RotateLeft32(f(b,c,d) + a + x[g] + K[i], s[i])], after which the
    roles of the four words rotate. *)
Definition step (q : list byte) (st : state) (i : nat) : state :=
  let x := LEUint32 (skipn (4 * word_index i) q) in
  let t := add32 (add32 (add32 (mix i (sb st) (sc st) (sd st)) (sa st)) x)
                 (nth i K 0) in
  mkState (sd st) (add32 (sb st) (RotateLeft32 t (nth i shifts 0))) (sb st) (sc st).

(** The body of [blockGeneric]'s loop on one 64-byte block [q]. *)
Definition block1 (st : state) (q : list byte) : state :=
  let r := fold_left (step q) (seq 0 64) st in
  mkState (add32 (sa r) (sa st)) (add32 (sb r) (sb st))
          (add32 (sc r) (sc st)) (add32 (sd r) (sd st)).

(** [block]: [n] successive 64-byte blocks of [p]
    ([for i := 0; i <= len(p)-BlockSize; i += BlockSize]). *)
Fixpoint blocks (n : nat) (st : state) (p : list byte) : state :=
  match n with
  | O => st
  | S n' => blocks n' (block1 st (firstn BlockSize p)) (skipn BlockSize p)
  end.

Definition block (st : state) (p : list byte) : state :=
  blocks (List.length p / BlockSize) st p.

Record digest : Type := mkDigest {
  s : state;
  x : list byte;   (* x[:nx] *)
  len : Z          (* uint64 *)
}.

Definition init : state := mkState 0x67452301 0xefcdab89 0x98badcfe 0x10325476.

(** [md5.New] *)
Definition New : digest := mkDigest init [] 0.

(** [digest.Write] *)
Definition Write (d : digest) (p : list byte) : digest :=
  let len' := (len d + Z.of_nat (List.length p)) mod 2 ^ 64 in
  (* if d.nx > 0 { n := copy(d.x[d.nx:], p); ... p = p[n:] } *)
  let '(s1, x1, p1) :=
    match x d with
    | [] => (s d, [], p)
    | _ :: _ =>
        let n := Nat.min (BlockSize - List.length (x d)) (List.length p) in
        let x' := x d ++ firstn n p in
        if (List.length x' =? BlockSize)%nat
        then (block (s d) x', [], skipn n p)
        else (s d, x', skipn n p)
    end in
  (* if len(p) >= BlockSize { n := len(p) &^ (BlockSize - 1); block(d, p[:n]); p = p[n:] } *)
  let '(s2, p2) :=
    if (BlockSize <=? List.length p1)%nat
    then let n := (List.length p1 / BlockSize * BlockSize)%nat in
         (block s1 (firstn n p1), skipn n p1)
    else (s1, p1) in
  (* if len(p) > 0 { d.nx = copy(d.x[:], p) } *)
  match p2 with
  | [] => mkDigest s2 x1 len'
  | _ :: _ => mkDigest s2 p2 len'
  end.

(** [digest.checkSum]: one end-marker byte, [pad] zero bytes and the
    List.length in bits, then the four state words in little-endian order. *)
Definition checkSum (d : digest) : list byte :=
  let pad := Z.to_nat (((55 - len d) mod 2 ^ 64) mod 64) in
  let tmp := x80 :: repeat x00 pad ++ PutUint64 ((len d * 8) mod 2 ^ 64) in
  let d' := Write d tmp in
  PutUint32 (sa (s d')) ++ PutUint32 (sb (s d')) ++
  PutUint32 (sc (s d')) ++ PutUint32 (sd (s d')).

(** [digest.Sum]: works on a copy of the digest, appends to [b]. *)
Definition Sum (d : digest) (b : list byte) : list byte := b ++ checkSum d.

(** The digest as RFC 1321 defines it: pad the message to a multiple of 64
    bytes, run the block function over it from the initial state. *)
Definition padding (msg : list byte) : list byte :=
  let l := Z.of_nat (List.length msg) in
  x80 :: repeat x00 (Z.to_nat ((55 - l) mod 64)) ++ PutUint64 ((l * 8) mod 2 ^ 64).

Definition digest_of (msg : list byte) : list byte :=
  let st := block init (msg ++ padding msg) in
  PutUint32 (sa st) ++ PutUint32 (sb st) ++ PutUint32 (sc st) ++ PutUint32 (sd st).

(** What a digest holds after the bytes [msg] were written to a new one:
    the state after the whole blocks of [msg], the rest of [msg] pending. *)
Definition holds (d : digest) (msg : list byte) : Prop :=
  exists (k : nat) (body : list byte),
    msg = body ++ x d /\
    List.length body = (BlockSize * k)%nat /\
    (List.length (x d) < BlockSize)%nat /\
    s d = blocks k init body /\
    len d = Z.of_nat (List.length msg) mod 2 ^ 64.

End md5.

(** ** fmt.Sprintf("%x", b) for a byte slice: two lowercase digits a byte *)

Definition hex_digit (n : N) : ascii :=
  match n with
  | 0 => "0" | 1 => "1" | 2 => "2" | 3 => "3" | 4 => "4"
  | 5 => "5" | 6 => "6" | 7 => "7" | 8 => "8" | 9 => "9"
  | 10 => "a" | 11 => "b" | 12 => "c" | 13 => "d" | 14 => "e"
  | _ => "f"
  end%N%char.

Fixpoint Sprintf_x (b : list byte) : string :=
  match b with
  | [] => EmptyString
  | c :: rest =>
      String (hex_digit (Byte.to_N c / 16))
        (String (hex_digit (Byte.to_N c mod 16)) (Sprintf_x rest))
  end.

(** The digits [Sprintf_x] writes. *)
Definition lower_hex (c : ascii) : bool :=
  existsb (Ascii.eqb c) (list_ascii_of_string "0123456789abcdef").

(** The value of a hexadecimal digit. *)
Definition hex_value (c : ascii) : N :=
  let n := N_of_ascii c in
  (if n <? 58 then n - 48 else n - 87)%N.

(** [io.WriteString(h, s)] on the md5 digest *)
Definition WriteString (h : md5.digest) (str : string) : md5.digest :=
  md5.Write h (list_byte_of_string str).

(** ** [hash]: a file name based on path and branch *)

Definition hash (mount branch : string) : string :=
  let parts := [mount; branch] in
  let h := md5.New in
  let h := fold_left (fun h part => WriteString h part) parts h in
  Sprintf_x (md5.Sum h []).

Local Open Scope string_scope.

(** ** strings.HasPrefix *)

Definition HasPrefix (str pre : string) : bool := String.prefix pre str.

(** ** path/filepath (Unix)

    [Clean] works lexically on the elements of the path between separators:
    empty elements and [.] are dropped, [..] removes the element before it
    when there is one to remove, is dropped at the root, and is kept at the
    head of a path that is not rooted. *)

Module filepath.

Definition Separator : ascii := "/"%char.

(** The elements of [path] between separators (never the empty list). *)
Fixpoint elements (path : string) : list string :=
  match path with
  | EmptyString => [EmptyString]
  | String c rest =>
      if Ascii.eqb c Separator then EmptyString :: elements rest
      else match elements rest with
           | e :: es => String c e :: es
           | [] => [String c EmptyString]
           end
  end.

(** One element of [Clean]'s loop; [out] holds the elements written so far.
    The buffer can backtrack ([out.w > dotdot]) when its last element is a
    real one, not one of the leading [..]. *)
Definition clean_element (rooted : bool) (out : list string) (e : string)
  : list string :=
  if e =? "" then out
  else if e =? "." then out
  else if e =? ".." then
    match out with
    | [] => if rooted then out else out ++ [".."]
    | _ :: _ =>
        if last out "" =? ".."
        then (if rooted then out else out ++ [".."])
        else removelast out
    end
  else out ++ [e].

Definition Clean (path : string) : string :=
  match path with
  | EmptyString => "."
  | String c _ =>
      let rooted := Ascii.eqb c Separator in
      let out := fold_left (clean_element rooted) (elements path) [] in
      if rooted then String Separator (String.concat "/" out)
      else match out with
           | [] => "."
           | _ :: _ => String.concat "/" out
           end
  end.

(** [Join]: the elements from the first non-empty one on, joined with the
    separator and cleaned; the empty string when every element is empty. *)
Fixpoint Join (elem : list string) : string :=
  match elem with
  | [] => ""
  | e :: rest =>
      if e =? "" then Join rest else Clean (String.concat "/" elem)
  end.

End filepath.

(** ** Errors

    A Go [error] is [option error]: [None] is [nil]. *)

(** Modelled from the spec: the kinds of failure of the collaborators (the
    [cache] and [provider] packages are not part of the source);
    [NotFound] is a missing remote object, [TransportError] a network or
    authentication failure of the provider. *)
Inductive ErrorKind : Type :=
| UploadFailure
| DownloadFailure
| ArchiveFailure
| ExtractFailure
| TransportError
| NotFound.

Inductive error : Type :=
| Failure (kind : ErrorKind) (text : string)
| withMessage (cause : error) (msg : string).

Module errors.

(** [errors.Wrap]: [nil] for a [nil] error, else the error annotated with
    [message] (the recorded stack trace is not modelled). *)
Definition Wrap (err : option error) (message : string) : option error :=
  match err with
  | None => None
  | Some e => Some (withMessage e message)
  end.

(** [errors.Cause]: the innermost error. *)
Fixpoint Cause (e : error) : error :=
  match e with
  | withMessage c _ => Cause c
  | Failure _ _ => e
  end.

End errors.

(** [err.Error()] *)
Fixpoint Error (e : error) : string :=
  match e with
  | Failure _ text => text
  | withMessage c msg => msg ++ ": " ++ Error c
  end.

(** ** The AWS configuration and the provider handle *)

Module credentials.

Record Credentials : Type := mkCredentials {
  AccessKeyID : string;
  SecretAccessKey : string;
  SessionToken : string
}.

Definition NewStaticCredentials (id secret token : string) : Credentials :=
  mkCredentials id secret token.

End credentials.

Module aws.

(** The fields of [aws.Config] that [Exec] sets; [Credentials] is [None]
    (a nil pointer) unless set, which leaves the resolution of credentials
    to the SDK's default chain. *)
Record Config : Type := mkConfig {
  Region : string;
  Endpoint : string;
  DisableSSL : bool;
  S3ForcePathStyle : bool;
  Credentials : option credentials.Credentials
}.

Definition with_Credentials (c : Config) (cr : credentials.Credentials) : Config :=
  mkConfig (Region c) (Endpoint c) (DisableSSL c) (S3ForcePathStyle c) (Some cr).

End aws.

Module provider.

(** Modelled from the spec: the provider package is not part of the source.
    The handle owns the backend configuration, fixed at construction and not
    changed afterwards; construction itself reports no error. *)
Record Provider : Type := mkProvider {
  bucket : string;
  acl : string;
  encryption : string;
  conf : aws.Config
}.

Definition NewS3 (bucket acl encryption : string) (conf : aws.Config) : Provider :=
  mkProvider bucket acl encryption conf.

End provider.

(** ** Programs over the collaborators

    The plugin calls the clock, the logger and the two operations of the
    [cache] package, [cache.Upload(c, src, dst)] and
    [cache.Download(c, src, dst)].  A program is a tree of such calls; an
    environment answers them, and running a program in an environment gives
    its result, the calls it made with their answers, and the final state of
    the world. *)

Inductive Arg : Type :=
| AString (v : string)
| ADuration (d : Z).

Inductive Prog (A : Type) : Type :=
| Ret (a : A)
| TimeNow (k : Z -> Prog A)
| LogPrintf (format : string) (args : list Arg) (k : Prog A)
| CacheUpload (c : provider.Provider) (src dst : string) (k : option error -> Prog A)
| CacheDownload (c : provider.Provider) (src dst : string) (k : option error -> Prog A).

Arguments Ret {A} a.
Arguments TimeNow {A} k.
Arguments LogPrintf {A} format args k.
Arguments CacheUpload {A} c src dst k.
Arguments CacheDownload {A} c src dst k.

Fixpoint bind {A B : Type} (m : Prog A) (f : A -> Prog B) : Prog B :=
  match m with
  | Ret a => f a
  | TimeNow k => TimeNow (fun t => bind (k t) f)
  | LogPrintf format args k => LogPrintf format args (bind k f)
  | CacheUpload c src dst k => CacheUpload c src dst (fun r => bind (k r) f)
  | CacheDownload c src dst k => CacheDownload c src dst (fun r => bind (k r) f)
  end.

Declare Scope prog_scope.
Delimit Scope prog_scope with prog.
Notation "x <- m ;; k" := (bind m (fun x => k))
  (at level 100, m at next level, right associativity) : prog_scope.
Notation "m ;;; k" := (bind m (fun _ => k))
  (at level 100, right associativity) : prog_scope.

Module time.
Definition Now : Prog Z := TimeNow (fun t => Ret t).
(** [time.Since(t)] is [time.Now().Sub(t)] *)
Definition Since (t : Z) : Prog Z := TimeNow (fun t' => Ret (t' - t)%Z).
End time.

Module log.
Definition Printf (format : string) (args : list Arg) : Prog unit :=
  LogPrintf format args (Ret tt).
End log.

Module cache.
Definition Upload (c : provider.Provider) (src dst : string) : Prog (option error) :=
  CacheUpload c src dst (fun r => Ret r).
Definition Download (c : provider.Provider) (src dst : string) : Prog (option error) :=
  CacheDownload c src dst (fun r => Ret r).
End cache.

(** The calls of a run, each with its answer. *)
Inductive Event : Type :=
| ENow (t : Z)
| ELog (format : string) (args : list Arg)
| EUpload (c : provider.Provider) (src dst : string) (r : option error)
| EDownload (c : provider.Provider) (src dst : string) (r : option error).

(** An environment over worlds [W]: the clock, the log, and what an upload
    or a download does to the world and answers. *)
Record Env (W : Type) : Type := mkEnv {
  env_now : W -> Z * W;
  env_log : string -> list Arg -> W -> W;
  env_upload : provider.Provider -> string -> string -> W -> option error * W;
  env_download : provider.Provider -> string -> string -> W -> option error * W
}.

Arguments env_now {W} e.
Arguments env_log {W} e.
Arguments env_upload {W} e.
Arguments env_download {W} e.

Record Outcome (A W : Type) : Type := mkOutcome {
  result : A;
  trace : list Event;
  world : W
}.

Arguments mkOutcome {A W}.
Arguments result {A W}.
Arguments trace {A W}.
Arguments world {A W}.

Fixpoint run {A W : Type} (env : Env W) (m : Prog A) (w : W) : Outcome A W :=
  match m with
  | Ret a => mkOutcome a [] w
  | TimeNow k =>
      let '(t, w1) := env_now env w in
      let o := run env (k t) w1 in
      mkOutcome (result o) (ENow t :: trace o) (world o)
  | LogPrintf format args k =>
      let o := run env k (env_log env format args w) in
      mkOutcome (result o) (ELog format args :: trace o) (world o)
  | CacheUpload c src dst k =>
      let '(r, w1) := env_upload env c src dst w in
      let o := run env (k r) w1 in
      mkOutcome (result o) (EUpload c src dst r :: trace o) (world o)
  | CacheDownload c src dst k =>
      let '(r, w1) := env_download env c src dst w in
      let o := run env (k r) w1 in
      mkOutcome (result o) (EDownload c src dst r :: trace o) (world o)
  end.

(** ** The plugin *)

Record Plugin : Type := mkPlugin {
  ACL : string;
  Branch : string;
  Bucket : string;
  Default : string;
  Encryption : string;
  Endpoint : string;
  Key : string;
  Mount : list string;
  PathStyle : bool;
  Rebuild : bool;
  Region : string;
  Repo : string;
  Restore : bool;
  Secret : string
}.

Local Open Scope prog_scope.

(** The loop of [processRebuild] over the mounts still to do: the first
    failing upload returns from the function. *)
Fixpoint rebuild_mounts (p : Plugin) (c : provider.Provider) (mounts : list string)
  : Prog (option error) :=
  match mounts with
  | [] => Ret None
  | mount :: rest =>
      let cacheKey := hash mount (Branch p) in
      let path := filepath.Join [Repo p; cacheKey] in
      log.Printf "archiving directory <%s> to remote cache <%s>"
                 [AString mount; AString path] ;;;
      err <- cache.Upload c mount path ;;
      match err with
      | Some _ => Ret (errors.Wrap err "could not upload")
      | None => rebuild_mounts p c rest
      end
  end.

(** [processRebuild] the remote cache from the local environment *)
Definition processRebuild (p : Plugin) (c : provider.Provider) : Prog (option error) :=
  now <- time.Now ;;
  err <- rebuild_mounts p c (Mount p) ;;
  match err with
  | Some _ => Ret err
  | None =>
      d <- time.Since now ;;
      log.Printf "cache built in %v" [ADuration d] ;;;
      Ret None
  end.

(** The loop of [processRestore]. *)
Fixpoint restore_mounts (p : Plugin) (c : provider.Provider) (mounts : list string)
  : Prog (option error) :=
  match mounts with
  | [] => Ret None
  | mount :: rest =>
      let cacheKey := hash mount (Branch p) in
      let path := filepath.Join [Repo p; cacheKey] in
      log.Printf "restoring directory <%s> from remote cache <%s>"
                 [AString mount; AString path] ;;;
      err <- cache.Download c path mount ;;
      match err with
      | Some _ => Ret (errors.Wrap err "could not download")
      | None => restore_mounts p c rest
      end
  end.

(** [processRestore] the local environment from the remote cache *)
Definition processRestore (p : Plugin) (c : provider.Provider) : Prog (option error) :=
  now <- time.Now ;;
  err <- restore_mounts p c (Mount p) ;;
  match err with
  | Some _ => Ret err
  | None =>
      d <- time.Since now ;;
      log.Printf "cache restored in %v" [ADuration d] ;;;
      Ret None
  end.

(** [Exec], the entry point of the plugin *)
Definition Exec (p : Plugin) : Prog (option error) :=
  let conf :=
    aws.mkConfig (Region p) (Endpoint p)
                 (negb (HasPrefix (Endpoint p) "https://"))
                 (PathStyle p) None in
  (* allowing to use the instance role or provide a key and secret *)
  let conf :=
    if negb (Key p =? "") && negb (Secret p =? "")
    then aws.with_Credentials conf
           (credentials.NewStaticCredentials (Key p) (Secret p) "")
    else conf in
  let cacheProvider := provider.NewS3 (Bucket p) (ACL p) (Encryption p) conf in
  err <- (if Rebuild p then processRebuild p cacheProvider else Ret None) ;;
  match err with
  | Some _ => Ret (errors.Wrap err "process rebuild failed")
  | None =>
      err <- (if Restore p then processRestore p cacheProvider else Ret None) ;;
      match err with
      | Some _ => Ret (errors.Wrap err "process restore failed")
      | None => Ret None
      end
  end.

Local Close Scope prog_scope.

(** ** Vocabulary of the statements *)

(** The remote path of a mount: the repo namespace joined with the key. *)
Definition remotePath (p : Plugin) (mount : string) : string :=
  filepath.Join [Repo p; hash mount (Branch p)].

(** The provider handle [Exec] constructs. *)
Definition Exec_provider (p : Plugin) : provider.Provider :=
  let conf :=
    aws.mkConfig (Region p) (Endpoint p)
                 (negb (HasPrefix (Endpoint p) "https://"))
                 (PathStyle p) None in
  let conf :=
    if negb (Key p =? "") && negb (Secret p =? "")
    then aws.with_Credentials conf
           (credentials.NewStaticCredentials (Key p) (Secret p) "")
    else conf in
  provider.NewS3 (Bucket p) (ACL p) (Encryption p) conf.

(** The provider operations among the calls of a run. *)
Definition is_call (ev : Event) : bool :=
  match ev with
  | EUpload _ _ _ _ | EDownload _ _ _ _ => true
  | ENow _ | ELog _ _ => false
  end.

Definition calls (tr : list Event) : list Event := filter is_call tr.

(** The answer a provider operation got. *)
Definition answer (ev : Event) : option error :=
  match ev with
  | EUpload _ _ _ r | EDownload _ _ _ r => r
  | ENow _ | ELog _ _ => None
  end.


(** The successful upload and download of a mount. *)
Definition uploaded (p : Plugin) (c : provider.Provider) (mount : string) : Event :=
  EUpload c mount (remotePath p mount) None.

Definition downloaded (p : Plugin) (c : provider.Provider) (mount : string) : Event :=
  EDownload c (remotePath p mount) mount None.

Definition failed_upload (p : Plugin) (c : provider.Provider) (mount : string)
  (e : error) : Event :=
  EUpload c mount (remotePath p mount) (Some e).

Definition failed_download (p : Plugin) (c : provider.Provider) (mount : string)
  (e : error) : Event :=
  EDownload c (remotePath p mount) mount (Some e).

(** How a pass over [mounts] ends: either every mount was done and the pass
    returns [nil], or the operations stop at the first mount whose operation
    fails, and the pass returns that error under [message]. *)
Definition pass_outcome {W : Type} (ok : string -> Event) (ko : string -> error -> Event)
  (message : string) (mounts : list string) (o : Outcome (option error) W) : Prop :=
  (result o = None /\ calls (trace o) = map ok mounts)
  \/ (exists pre m post e,
        mounts = (pre ++ m :: post)%list /\
        result o = Some (withMessage e message) /\
        calls (trace o) = (map ok pre ++ [ko m e])%list).

(** The world after the calls of a trace, made in order from [w]. *)
Fixpoint replay {W : Type} (env : Env W) (tr : list Event) (w : W) : W :=
  match tr with
  | [] => w
  | ENow _ :: rest => replay env rest (snd (env_now env w))
  | ELog format args :: rest => replay env rest (env_log env format args w)
  | EUpload c src dst _ :: rest => replay env rest (snd (env_upload env c src dst w))
  | EDownload c src dst _ :: rest => replay env rest (snd (env_download env c src dst w))
  end.

(** A cache key: not empty, every character one of [0-9a-f]. *)
Definition is_key (k : string) : Prop :=
  k <> "" /\ Forall (fun c => lower_hex c = true) (list_ascii_of_string k).

(** ** An in-memory store, for concrete runs

    The world is the list of remote paths that hold an object, and a clock.
    Archiving the directory [missing] fails; a download of a path that holds
    no object answers [NotFound]. *)

Module memory.

Record World : Type := mkWorld { objects : list string; clock : Z }.

Definition now (w : World) : Z * World :=
  (clock w, mkWorld (objects w) (clock w + 1)).

Definition upload (c : provider.Provider) (src dst : string) (w : World)
  : option error * World :=
  if src =? "missing"
  then (Some (Failure ArchiveFailure "no such directory"), w)
  else (None, mkWorld (dst :: objects w) (clock w)).

Definition download (c : provider.Provider) (src dst : string) (w : World)
  : option error * World :=
  if existsb (String.eqb src) (objects w)
  then (None, w)
  else (Some (Failure NotFound "no such key"), w).

Definition env : Env World :=
  mkEnv World now (fun _ _ w => w) upload download.

Definition empty : World := mkWorld [] 0.

Definition plugin (mounts : list string) (rebuild restore : bool) : Plugin :=
  mkPlugin "private" "main" "bucket" "master" "" "https://s3.example.com"
           "key" mounts false rebuild "eu-west-1" "myrepo" restore "secret".

End memory.

(** ** Two byte strings with one MD5 digest

    The two 128-byte messages of Wang and Yu's collision, split after their
    first 16 bytes, which they share. *)

Module collision.

Definition head : list byte :=
  [xd1; x31; xdd; x02; xc5; xe6; xee; xc4; x69; x3d; x9a; x06;
   x98; xaf; xf9; x5c].

Definition tail1 : list byte :=
  [x2f; xca; xb5; x87; x12; x46; x7e; xab; x40; x04; x58; x3e;
   xb8; xfb; x7f; x89; x55; xad; x34; x06; x09; xf4; xb3; x02;
   x83; xe4; x88; x83; x25; x71; x41; x5a; x08; x51; x25; xe8;
   xf7; xcd; xc9; x9f; xd9; x1d; xbd; xf2; x80; x37; x3c; x5b;
   xd8; x82; x3e; x31; x56; x34; x8f; x5b; xae; x6d; xac; xd4;
   x36; xc9; x19; xc6; xdd; x53; xe2; xb4; x87; xda; x03; xfd;
   x02; x39; x63; x06; xd2; x48; xcd; xa0; xe9; x9f; x33; x42;
   x0f; x57; x7e; xe8; xce; x54; xb6; x70; x80; xa8; x0d; x1e;
   xc6; x98; x21; xbc; xb6; xa8; x83; x93; x96; xf9; x65; x2b;
   x6f; xf7; x2a; x70].

Definition tail2 : list byte :=
  [x2f; xca; xb5; x07; x12; x46; x7e; xab; x40; x04; x58; x3e;
   xb8; xfb; x7f; x89; x55; xad; x34; x06; x09; xf4; xb3; x02;
   x83; xe4; x88; x83; x25; xf1; x41; x5a; x08; x51; x25; xe8;
   xf7; xcd; xc9; x9f; xd9; x1d; xbd; x72; x80; x37; x3c; x5b;
   xd8; x82; x3e; x31; x56; x34; x8f; x5b; xae; x6d; xac; xd4;
   x36; xc9; x19; xc6; xdd; x53; xe2; x34; x87; xda; x03; xfd;
   x02; x39; x63; x06; xd2; x48; xcd; xa0; xe9; x9f; x33; x42;
   x0f; x57; x7e; xe8; xce; x54; xb6; x70; x80; x28; x0d; x1e;
   xc6; x98; x21; xbc; xb6; xa8; x83; x93; x96; xf9; x65; xab;
   x6f; xf7; x2a; x70].

Definition mount : string := string_of_list_byte head.
Definition branch1 : string := string_of_list_byte tail1.
Definition branch2 : string := string_of_list_byte tail2.

End collision.

(** ** Vocabulary of the further statements *)

Definition is_upload (ev : Event) : bool :=
  match ev with EUpload _ _ _ _ => true | _ => false end.

Definition is_download (ev : Event) : bool :=
  match ev with EDownload _ _ _ _ => true | _ => false end.

(** The log lines that announce the operation on a mount. *)
Definition announce_upload (p : Plugin) (mount : string) : Event :=
  ELog "archiving directory <%s> to remote cache <%s>"
       [AString mount; AString (remotePath p mount)].

Definition announce_download (p : Plugin) (mount : string) : Event :=
  ELog "restoring directory <%s> from remote cache <%s>"
       [AString mount; AString (remotePath p mount)].

(** The plugin with another default branch. *)
Definition with_Default (p : Plugin) (d : string) : Plugin :=
  mkPlugin (ACL p) (Branch p) (Bucket p) d (Encryption p) (Endpoint p) (Key p)
           (Mount p) (PathStyle p) (Rebuild p) (Region p) (Repo p) (Restore p)
           (Secret p).

(** A single path element that [Clean] keeps as it is: not empty, not [.]
    or [..], without a separator. *)
Definition plain (r : string) : Prop :=
  r <> "" /\ r <> "." /\ r <> ".." /\
  Forall (fun c => c <> filepath.Separator) (list_ascii_of_string r).

(** An environment whose store keeps what it is given: no call removes a
    stored path, a successful upload stores its destination, and the
    download of a stored path succeeds. *)
Record keeps {W : Type} (env : Env W) (stored : W -> string -> Prop) : Prop := mkKeeps {
  keeps_now : forall w x, stored w x -> stored (snd (env_now env w)) x;
  keeps_log : forall f a w x, stored w x -> stored (env_log env f a w) x;
  keeps_upload : forall c src dst w x,
    stored w x -> stored (snd (env_upload env c src dst w)) x;
  stores_upload : forall c src dst w,
    fst (env_upload env c src dst w) = None ->
    stored (snd (env_upload env c src dst w)) dst;
  keeps_download : forall c src dst w x,
    stored w x -> stored (snd (env_download env c src dst w)) x;
  finds_download : forall c src dst w,
    stored w src -> fst (env_download env c src dst w) = None
}.

(** The number of passes the flags ask for. *)
Definition passes (p : Plugin) : nat :=
  ((if Rebuild p then 1 else 0) + (if Restore p then 1 else 0))%nat.

(** * Properties *)

(** ** The streaming digest computes the RFC 1321 digest *)

Module md5_facts.
Import md5.
Local Open Scope list_scope.

Lemma blocks_app (n m : nat) (st : state) (p q : list byte) :
  List.length p = (BlockSize * n)%nat ->
  blocks (n + m) st (p ++ q) = blocks m (blocks n st p) q.
Proof.
  revert st p. induction n as [|n IH]; intros st p Hp.
  - destruct p; [reflexivity | discriminate].
  - assert (Hle : (BlockSize <= List.length p)%nat) by lia.
    cbn [Nat.add blocks].
    rewrite firstn_app, skipn_app.
    replace (BlockSize - List.length p)%nat with 0%nat by lia.
    cbn [firstn skipn]. rewrite app_nil_r.
    apply IH. rewrite length_skipn. lia.
Qed.

Lemma blocks_exact (n : nat) (st : state) (p q : list byte) :
  List.length p = (BlockSize * n)%nat ->
  blocks n st (p ++ q) = blocks n st p.
Proof.
  intros Hp. rewrite <- (Nat.add_0_r n) at 1.
  rewrite blocks_app by assumption. reflexivity.
Qed.

Lemma holds_New : holds New [].
Proof.
  exists 0%nat, []. repeat split; try reflexivity.
  cbn. unfold BlockSize. lia.
Qed.

Lemma block_whole (st : state) (p : list byte) (j : nat) :
  List.length p = (BlockSize * j)%nat -> block st p = blocks j st p.
Proof.
  intros Hp. unfold block. rewrite Hp.
  replace (BlockSize * j / BlockSize)%nat with j; [reflexivity|].
  rewrite Nat.mul_comm. symmetry. apply Nat.div_mul. discriminate.
Qed.

(** The second and third steps of [Write], from a digest with nothing
    pending. *)
Lemma Write_aligned (k : nat) (body p : list byte) (l : Z) :
  List.length body = (BlockSize * k)%nat ->
  let j := (List.length p / BlockSize)%nat in
  Write (mkDigest (blocks k init body) [] l) p =
  mkDigest (blocks (k + j) init (body ++ firstn (j * BlockSize) p))
           (skipn (j * BlockSize) p)
           ((l + Z.of_nat (List.length p)) mod 2 ^ 64).
Proof.
  intros Hb j. unfold Write. cbn [x s len].
  assert (Hj : (j * BlockSize <= List.length p)%nat).
  { subst j. rewrite Nat.mul_comm. apply Nat.Div0.mul_div_le. }
  destruct (BlockSize <=? List.length p)%nat eqn:Hge.
  - fold j.
    assert (Hf : List.length (firstn (j * BlockSize) p) = (BlockSize * j)%nat).
    { rewrite length_firstn. lia. }
    rewrite (block_whole _ _ j Hf).
    rewrite (blocks_app k j init body _ Hb).
    destruct (skipn (j * BlockSize) p); reflexivity.
  - apply Nat.leb_gt in Hge.
    assert (j = 0%nat) by (subst j; apply Nat.div_small; exact Hge).
    subst j. rewrite H. cbn [Nat.mul firstn skipn].
    rewrite app_nil_r, Nat.add_0_r.
    destruct p; reflexivity.
Qed.

Lemma holds_Write (d : digest) (msg p : list byte) :
  holds d msg -> holds (Write d p) (msg ++ p).
Proof.
  intros (k & body & Hmsg & Hbody & Hx & Hs & Hlen).
  assert (Hlen' : (len d + Z.of_nat (List.length p)) mod 2 ^ 64 =
                  Z.of_nat (List.length (msg ++ p)) mod 2 ^ 64).
  { rewrite Hlen, length_app, Nat2Z.inj_add. apply Zplus_mod_idemp_l. }
  destruct d as [sd0 xd ld]. cbn [x s len] in *.
  destruct xd as [|b xd].
  - (* nothing pending *)
    rewrite app_nil_r in Hmsg. subst msg sd0.
    rewrite (Write_aligned k body p ld Hbody).
    set (j := (List.length p / BlockSize)%nat).
    assert (Hj : (j * BlockSize <= List.length p)%nat).
    { subst j. rewrite Nat.mul_comm. apply Nat.Div0.mul_div_le. }
    assert (Hr : (List.length p < j * BlockSize + BlockSize)%nat).
    { subst j. pose proof (Nat.div_mod_eq (List.length p) BlockSize) as E.
      pose proof (Nat.mod_upper_bound (List.length p) BlockSize) as U.
      unfold BlockSize in *. lia. }
    exists (k + j)%nat, (body ++ firstn (j * BlockSize) p). cbn [x s len].
    repeat split.
    + rewrite <- app_assoc, firstn_skipn. reflexivity.
    + rewrite length_app, length_firstn. lia.
    + rewrite length_skipn. lia.
    + exact Hlen'.
  - (* some bytes pending *)
    set (r := b :: xd) in *.
    set (n := Nat.min (BlockSize - List.length r) (List.length p)).
    destruct (List.length (r ++ firstn n p) =? BlockSize)%nat eqn:Hfull.
    + (* the pending block is completed *)
      apply Nat.eqb_eq in Hfull.
      assert (Hn : (n <= List.length p)%nat) by (subst n; lia).
      assert (Hb1 : List.length (body ++ r ++ firstn n p) = (BlockSize * (k + 1))%nat).
      { rewrite length_app, Hfull. lia. }
      assert (Hstep : blocks (k + 1) init (body ++ r ++ firstn n p) =
                      block sd0 (r ++ firstn n p)).
      { rewrite (blocks_app k 1 init body _ Hbody).
        rewrite (block_whole _ _ 1%nat) by (rewrite Hfull; lia).
        subst sd0. reflexivity. }
      assert (HW : Write (mkDigest sd0 r ld) p =
                   Write (mkDigest (blocks (k + 1) init (body ++ r ++ firstn n p)) []
                                   (ld + Z.of_nat n)) (skipn n p)).
      { unfold Write at 1. cbn [x s len]. unfold r at 1. fold r. fold n.
        apply Nat.eqb_eq in Hfull. rewrite Hfull.
        unfold Write. cbn [x s len]. rewrite Hstep.
        rewrite length_skipn.
        replace ((ld + Z.of_nat n + Z.of_nat (List.length p - n)))%Z
          with (ld + Z.of_nat (List.length p))%Z by lia.
        reflexivity. }
      rewrite HW, (Write_aligned (k + 1) _ (skipn n p) _ Hb1).
      set (q := skipn n p).
      set (j := (List.length q / BlockSize)%nat).
      assert (Hj : (j * BlockSize <= List.length q)%nat).
      { subst j. rewrite Nat.mul_comm. apply Nat.Div0.mul_div_le. }
      assert (Hr : (List.length q < j * BlockSize + BlockSize)%nat).
      { subst j. pose proof (Nat.div_mod_eq (List.length q) BlockSize) as E.
        pose proof (Nat.mod_upper_bound (List.length q) BlockSize) as U.
        unfold BlockSize in *. lia. }
      exists (k + 1 + j)%nat, ((body ++ r ++ firstn n p) ++ firstn (j * BlockSize) q).
      cbn [x s len]. repeat split.
      * subst msg. rewrite <- !app_assoc. f_equal. f_equal.
        rewrite <- (firstn_skipn n p) at 1. fold q. f_equal.
        symmetry. apply firstn_skipn.
      * rewrite length_app, Hb1, length_firstn. lia.
      * rewrite length_skipn. lia.
      * subst q. rewrite length_skipn.
        replace (ld + Z.of_nat n + Z.of_nat (List.length p - n))%Z
          with (ld + Z.of_nat (List.length p))%Z by lia.
        exact Hlen'.
    + (* still short of a block: everything is kept pending *)
      apply Nat.eqb_neq in Hfull.
      assert (Hn : n = List.length p).
      { rewrite length_app, length_firstn in Hfull. subst n. lia. }
      assert (Hshort : (List.length (r ++ p) < BlockSize)%nat).
      { rewrite length_app, length_firstn in Hfull. rewrite length_app. lia. }
      assert (HW : Write (mkDigest sd0 r ld) p =
                   mkDigest sd0 (r ++ p) ((ld + Z.of_nat (List.length p)) mod 2 ^ 64)).
      { unfold Write. cbn [x s len]. unfold r at 1. fold r. fold n.
        apply Nat.eqb_neq in Hfull. rewrite Hfull.
        rewrite Hn, firstn_all, skipn_all. cbn. reflexivity. }
      rewrite HW. exists k, body. cbn [x s len]. repeat split; auto.
      subst msg. rewrite app_assoc. reflexivity.
Qed.

Lemma length_PutUint32 (v : Z) : List.length (PutUint32 v) = 4%nat.
Proof. reflexivity. Qed.

Lemma length_PutUint64 (v : Z) : List.length (PutUint64 v) = 8%nat.
Proof. reflexivity. Qed.

Lemma length_padding (msg : list byte) :
  exists t : nat, List.length (msg ++ padding msg) = (BlockSize * t)%nat.
Proof.
  unfold padding. cbn zeta.
  set (l := Z.of_nat (List.length msg)).
  pose proof (Z.div_mod (55 - l) 64 ltac:(lia)) as E.
  pose proof (Z.mod_pos_bound (55 - l) 64 ltac:(lia)) as B.
  exists (Z.to_nat (1 - (55 - l) / 64)).
  rewrite length_app. cbn [List.length].
  rewrite length_app, repeat_length, length_PutUint64.
  unfold BlockSize. subst l. lia.
Qed.

Lemma pad_mod (l : Z) :
  ((55 - l mod 2 ^ 64) mod 2 ^ 64) mod 64 = (55 - l) mod 64.
Proof.
  assert (D : (64 | 2 ^ 64)) by (exists (2 ^ 58); reflexivity).
  rewrite (Z.mod_mod_divide _ _ _ D).
  rewrite Zminus_mod.
  rewrite (Z.mod_mod_divide _ _ _ D).
  rewrite <- Zminus_mod. reflexivity.
Qed.

(** [checkSum] of a digest that was given [msg] is the RFC digest of
    [msg]. *)
Lemma checkSum_holds (d : digest) (msg : list byte) :
  holds d msg -> checkSum d = digest_of msg.
Proof.
  intros H.
  assert (Hl : len d = Z.of_nat (List.length msg) mod 2 ^ 64)
    by (destruct H as (? & ? & ? & ? & ? & ? & ?); assumption).
  unfold checkSum. cbn zeta.
  rewrite Hl, pad_mod, Zmult_mod_idemp_l.
  change (x80 :: repeat x00 (Z.to_nat ((55 - Z.of_nat (List.length msg)) mod 64)) ++
          PutUint64 ((Z.of_nat (List.length msg) * 8) mod 2 ^ 64))
    with (padding msg).
  destruct (holds_Write d msg (padding msg) H) as (k & body & Hm & Hb & Hx & Hs & _).
  destruct (length_padding msg) as (t & Ht).
  assert (Hx0 : x (Write d (padding msg)) = []).
  { apply length_zero_iff_nil.
    apply (f_equal (@List.length byte)) in Hm.
    rewrite Ht, length_app, Hb in Hm. unfold BlockSize in *. lia. }
  rewrite Hx0, app_nil_r in Hm.
  unfold digest_of. cbn zeta.
  rewrite Hm, (block_whole init body k Hb), <- Hs. reflexivity.
Qed.

Lemma length_digest_of (msg : list byte) : List.length (digest_of msg) = Size.
Proof. reflexivity. Qed.

End md5_facts.

(** ** The hexadecimal rendering *)

Lemma hex_digit_lower (n : N) : lower_hex (hex_digit n) = true.
Proof.
  destruct n as [|p]; [reflexivity|].
  do 4 (try destruct p as [p|p|]); reflexivity.
Qed.

Lemma hex_value_digit (n : N) : (n < 16)%N -> hex_value (hex_digit n) = n.
Proof.
  intros H. destruct n as [|p]; [reflexivity|].
  do 4 (try destruct p as [p|p|]); try reflexivity; lia.
Qed.

Lemma byte_hi_lt (c : byte) : (Byte.to_N c / 16 < 16)%N.
Proof.
  pose proof (Byte.to_N_bounded c).
  apply N.Div0.div_lt_upper_bound. lia.
Qed.

Lemma byte_lo_lt (c : byte) : (Byte.to_N c mod 16 < 16)%N.
Proof. apply N.mod_upper_bound. discriminate. Qed.

Lemma to_N_inj (c d : byte) : Byte.to_N c = Byte.to_N d -> c = d.
Proof.
  intros H. pose proof (Byte.of_to_N c) as Hc. pose proof (Byte.of_to_N d) as Hd.
  rewrite H in Hc. congruence.
Qed.

Lemma length_Sprintf_x (b : list byte) :
  String.length (Sprintf_x b) = (2 * List.length b)%nat.
Proof.
  induction b as [|c b IH]; [reflexivity|].
  cbn [Sprintf_x String.length List.length]. rewrite IH. lia.
Qed.

Lemma Sprintf_x_lower (b : list byte) :
  Forall (fun c => lower_hex c = true) (list_ascii_of_string (Sprintf_x b)).
Proof.
  induction b as [|c b IH]; [constructor|].
  cbn [Sprintf_x list_ascii_of_string].
  constructor; [apply hex_digit_lower|].
  constructor; [apply hex_digit_lower|exact IH].
Qed.

Lemma Sprintf_x_inj (b1 b2 : list byte) :
  Sprintf_x b1 = Sprintf_x b2 -> b1 = b2.
Proof.
  revert b2. induction b1 as [|c b1 IH]; intros [|d b2] H; try discriminate.
  - reflexivity.
  - cbn [Sprintf_x] in H. injection H as Hhi Hlo Hrest.
    f_equal; [|apply IH; exact Hrest].
    apply (f_equal hex_value) in Hhi, Hlo.
    rewrite !hex_value_digit in Hhi, Hlo
      by first [apply byte_hi_lt | apply byte_lo_lt].
    apply to_N_inj.
    rewrite (N.div_mod (Byte.to_N c) 16), (N.div_mod (Byte.to_N d) 16) by discriminate.
    congruence.
Qed.

Lemma list_byte_of_string_app (a b : string) :
  list_byte_of_string (a ++ b) = (list_byte_of_string a ++ list_byte_of_string b)%list.
Proof.
  unfold list_byte_of_string.
  induction a as [|c a IH]; [reflexivity|].
  cbn [String.append list_ascii_of_string map app]. rewrite IH. reflexivity.
Qed.

Lemma hash_digest (mount branch : string) :
  hash mount branch =
  Sprintf_x (md5.digest_of (list_byte_of_string mount ++ list_byte_of_string branch)%list).
Proof.
  unfold hash. cbn [fold_left]. unfold md5.Sum, WriteString. cbn [app].
  f_equal. apply md5_facts.checkSum_holds.
  apply md5_facts.holds_Write.
  apply (md5_facts.holds_Write md5.New [] _ md5_facts.holds_New).
Qed.

(** C1. [hash] is the lowercase hexadecimal rendering of the MD5 digest of
    the bytes of [mount] followed by the bytes of [branch]; it is a total
    function, equal inputs give equal keys, and every key has 32 characters,
    each one of [0-9a-f]. *)
Theorem hash_is_md5_hex (mount branch : string) :
  hash mount branch = Sprintf_x (md5.digest_of (list_byte_of_string (mount ++ branch)))
  /\ String.length (hash mount branch) = 32%nat
  /\ Forall (fun c => lower_hex c = true) (list_ascii_of_string (hash mount branch))
  /\ (forall mount' branch', (mount', branch') = (mount, branch) ->
        hash mount' branch' = hash mount branch).
Proof.
  split; [|split; [|split]].
  - rewrite list_byte_of_string_app. apply hash_digest.
  - rewrite hash_digest, length_Sprintf_x, md5_facts.length_digest_of. reflexivity.
  - rewrite hash_digest. apply Sprintf_x_lower.
  - intros m' b' E. injection E as -> ->. reflexivity.
Qed.

(** ** Strings *)

Lemma append_assoc (a b c : string) : (a ++ b) ++ c = a ++ b ++ c.
Proof.
  induction a as [|ch a IH]; [reflexivity|].
  cbn [String.append]. rewrite IH. reflexivity.
Qed.

Lemma append_inv_head (a b c : string) : a ++ b = a ++ c -> b = c.
Proof.
  induction a as [|ch a IH]; cbn [String.append]; intros H.
  - exact H.
  - injection H as H. apply IH, H.
Qed.

Lemma list_ascii_of_string_app (a b : string) :
  list_ascii_of_string (a ++ b) = (list_ascii_of_string a ++ list_ascii_of_string b)%list.
Proof.
  induction a as [|c a IH]; [reflexivity|].
  cbn [String.append list_ascii_of_string app]. rewrite IH. reflexivity.
Qed.

Lemma list_ascii_of_string_inj (a b : string) :
  list_ascii_of_string a = list_ascii_of_string b -> a = b.
Proof.
  intros H. rewrite <- (string_of_list_ascii_of_string a),
    <- (string_of_list_ascii_of_string b), H. reflexivity.
Qed.

Lemma append_inv_tail (a b c : string) : a ++ c = b ++ c -> a = b.
Proof.
  intros H. apply list_ascii_of_string_inj.
  apply (f_equal list_ascii_of_string) in H.
  rewrite !list_ascii_of_string_app in H.
  apply app_inv_tail in H. exact H.
Qed.


(** ** Keys and remote paths *)

Lemma hash_is_key (mount branch : string) : is_key (hash mount branch).
Proof.
  split.
  - intros H. apply (f_equal String.length) in H.
    rewrite hash_digest, length_Sprintf_x, md5_facts.length_digest_of in H.
    discriminate.
  - rewrite hash_digest. apply Sprintf_x_lower.
Qed.

(** Equal keys are equal digests. *)
Lemma hash_eq_iff (m1 b1 m2 b2 : string) :
  hash m1 b1 = hash m2 b2 <->
  md5.digest_of (list_byte_of_string (m1 ++ b1)) =
  md5.digest_of (list_byte_of_string (m2 ++ b2)).
Proof.
  rewrite !hash_digest, !list_byte_of_string_app. split.
  - apply Sprintf_x_inj.
  - intros ->. reflexivity.
Qed.

Module filepath_facts.
Import filepath.

Lemma elements_cons (a : string) : exists e es, elements a = e :: es.
Proof.
  induction a as [|c a (e & es & IH)]; cbn [elements].
  - eexists _, _. reflexivity.
  - destruct (Ascii.eqb c Separator); [eexists _, _; reflexivity|].
    rewrite IH. eexists _, _. reflexivity.
Qed.

Lemma elements_app (a b : string) :
  elements (a ++ String Separator b) = (elements a ++ elements b)%list.
Proof.
  induction a as [|c a IH].
  - reflexivity.
  - cbn [String.append elements]. rewrite IH.
    destruct (Ascii.eqb c Separator); [reflexivity|].
    destruct (elements_cons a) as (e & es & ->). reflexivity.
Qed.

Lemma lower_hex_not (c : ascii) :
  lower_hex c = true -> Ascii.eqb c Separator = false /\ Ascii.eqb c "."%char = false.
Proof.
  intros H. split.
  - destruct (Ascii.eqb_spec c Separator) as [->|]; [discriminate H|reflexivity].
  - destruct (Ascii.eqb_spec c "."%char) as [->|]; [discriminate H|reflexivity].
Qed.

Lemma elements_hex (k : string) :
  Forall (fun c => lower_hex c = true) (list_ascii_of_string k) -> elements k = [k].
Proof.
  induction k as [|c k IH]; intros H; [reflexivity|].
  cbn [list_ascii_of_string] in H. inversion H as [|? ? Hc Hk]; subst.
  cbn [elements]. rewrite (proj1 (lower_hex_not c Hc)), (IH Hk). reflexivity.
Qed.

(** A key is a real element: [Clean] keeps it. *)
Lemma clean_element_key (rooted : bool) (out : list string) (k : string) :
  is_key k -> clean_element rooted out k = (out ++ [k])%list.
Proof.
  intros [Hne Hhex]. destruct k as [|c k]; [congruence|].
  cbn [list_ascii_of_string] in Hhex. inversion Hhex as [|? ? Hc _]; subst.
  destruct (lower_hex_not c Hc) as [_ Hdot].
  unfold clean_element.
  change (String c k =? "") with false.
  replace (String c k =? ".") with false
    by (cbn [String.eqb]; rewrite Hdot; reflexivity).
  replace (String c k =? "..") with false
    by (cbn [String.eqb]; rewrite Hdot; reflexivity).
  reflexivity.
Qed.

Lemma concat_snoc (out : list string) (k : string) :
  String.concat "/" (out ++ [k]) =
  match out with
  | [] => k
  | _ :: _ => String.concat "/" out ++ "/" ++ k
  end.
Proof.
  induction out as [|e out IH]; [reflexivity|].
  cbn [app]. destruct out as [|e' out].
  - reflexivity.
  - change (String.concat "/" (e :: (e' :: out) ++ [k]))
      with (e ++ "/" ++ String.concat "/" ((e' :: out) ++ [k])).
    rewrite IH.
    change (String.concat "/" (e :: e' :: out))
      with (e ++ "/" ++ String.concat "/" (e' :: out)).
    rewrite !append_assoc. reflexivity.
Qed.

(** The path of a key under a repo namespace ends with the key, after a
    part that the namespace alone decides. *)
Lemma Join_key (repo : string) :
  exists pre : string, forall k, is_key k -> Join [repo; k] = pre ++ k.
Proof.
  destruct repo as [|c repo].
  - exists "". intros k Hk. pose proof Hk as [Hne Hhex].
    cbn [Join]. change ("" =? "") with true. cbv iota.
    destruct k as [|d k]; [congruence|].
    change (String d k =? "") with false. cbv iota.
    change (String.concat "/" [String d k]) with (String d k).
    unfold Clean.
    cbn [list_ascii_of_string] in Hhex. inversion Hhex as [|? ? Hd _]; subst.
    rewrite (proj1 (lower_hex_not d Hd)).
    rewrite (elements_hex (String d k) Hhex).
    cbn [fold_left]. rewrite (clean_element_key false [] _ Hk). reflexivity.
  - set (rooted := Ascii.eqb c Separator).
    set (out := fold_left (clean_element rooted) (elements (String c repo)) []).
    exists (if rooted
            then String Separator
                   (match out with [] => "" | _ :: _ => String.concat "/" out ++ "/" end)
            else match out with [] => "" | _ :: _ => String.concat "/" out ++ "/" end).
    intros k Hk. pose proof Hk as [Hne Hhex].
    cbn [Join]. change (String c repo =? "") with false. cbv iota.
    change (String.concat "/" [String c repo; k])
      with (String c (repo ++ String Separator k)).
    unfold Clean. fold rooted.
    change (String c (repo ++ String Separator k))
      with (String c repo ++ String Separator k).
    rewrite elements_app, (elements_hex k Hhex), fold_left_app.
    fold out. cbn [fold_left]. rewrite (clean_element_key rooted out k Hk).
    rewrite concat_snoc.
    destruct rooted, out as [|e out]; cbn [app String.append];
      try reflexivity.
    + rewrite append_assoc. reflexivity.
    + rewrite append_assoc. reflexivity.
Qed.

Lemma Join_key_inj (repo k1 k2 : string) :
  is_key k1 -> is_key k2 -> Join [repo; k1] = Join [repo; k2] -> k1 = k2.
Proof.
  intros H1 H2 H. destruct (Join_key repo) as [pre Hpre].
  rewrite (Hpre k1 H1), (Hpre k2 H2) in H.
  apply append_inv_head in H. exact H.
Qed.

End filepath_facts.

(** ** Runs of the two passes and of [Exec] *)

Section Runs.
Context {W : Type} (env : Env W).
Local Open Scope list_scope.

Lemma run_bind {A B : Type} (m : Prog A) (f : A -> Prog B) (w : W) :
  run env (bind m f) w =
  let o1 := run env m w in
  let o2 := run env (f (result o1)) (world o1) in
  mkOutcome (result o2) (trace o1 ++ trace o2) (world o2).
Proof.
  revert w.
  induction m as [a|k IH|format args k IH|c src dst k IH|c src dst k IH];
    intros w; cbn [bind run].
  - cbn zeta. cbn [run result trace world app]. destruct (run env (f a) w); reflexivity.
  - destruct (env_now env w) as [t w1]. rewrite IH. reflexivity.
  - rewrite IH. reflexivity.
  - destruct (env_upload env c src dst w) as [r w1]. rewrite IH. reflexivity.
  - destruct (env_download env c src dst w) as [r w1]. rewrite IH. reflexivity.
Qed.

(** The world changes by the calls of the trace and by nothing else. *)
Lemma run_replay {A : Type} (m : Prog A) (w : W) :
  world (run env m w) = replay env (trace (run env m w)) w.
Proof.
  revert w.
  induction m as [a|k IH|format args k IH|c src dst k IH|c src dst k IH];
    intros w; cbn [run].
  - reflexivity.
  - destruct (env_now env w) as [t w1] eqn:E. cbn [world trace replay].
    rewrite E. apply IH.
  - cbn [world trace replay]. apply IH.
  - destruct (env_upload env c src dst w) as [r w1] eqn:E. cbn [world trace replay].
    rewrite E. apply IH.
  - destruct (env_download env c src dst w) as [r w1] eqn:E. cbn [world trace replay].
    rewrite E. apply IH.
Qed.

Lemma calls_app (t1 t2 : list Event) : calls (t1 ++ t2) = calls t1 ++ calls t2.
Proof. apply filter_app. Qed.

Lemma rebuild_mounts_outcome (p : Plugin) (c : provider.Provider)
  (mounts : list string) (w : W) :
  pass_outcome (uploaded p c) (failed_upload p c) "could not upload" mounts
    (run env (rebuild_mounts p c mounts) w).
Proof.
  revert w. induction mounts as [|mount rest IH]; intros w.
  - left. split; reflexivity.
  - cbn [rebuild_mounts]. cbn zeta. fold (remotePath p mount).
    unfold log.Printf, cache.Upload. cbn [bind run].
    destruct (env_upload env c mount (remotePath p mount) _) as [[e|] w1].
    + right. exists [], mount, rest, e. split; [reflexivity|]. split; reflexivity.
    + destruct (IH w1) as [[Hr Hc] | (pre & m & post & e & Hm & Hr & Hc)].
      * left. cbn [result trace]. split; [exact Hr|].
        cbn [calls filter is_call map]. fold (calls (trace (run env (rebuild_mounts p c rest) w1))).
        rewrite Hc. reflexivity.
      * right. exists (mount :: pre), m, post, e. cbn [result trace].
        split; [rewrite Hm; reflexivity|]. split; [exact Hr|].
        cbn [calls filter is_call map app].
        fold (calls (trace (run env (rebuild_mounts p c rest) w1))).
        rewrite Hc. reflexivity.
Qed.

Lemma restore_mounts_outcome (p : Plugin) (c : provider.Provider)
  (mounts : list string) (w : W) :
  pass_outcome (downloaded p c) (failed_download p c) "could not download" mounts
    (run env (restore_mounts p c mounts) w).
Proof.
  revert w. induction mounts as [|mount rest IH]; intros w.
  - left. split; reflexivity.
  - cbn [restore_mounts]. cbn zeta. fold (remotePath p mount).
    unfold log.Printf, cache.Download. cbn [bind run].
    destruct (env_download env c (remotePath p mount) mount _) as [[e|] w1].
    + right. exists [], mount, rest, e. split; [reflexivity|]. split; reflexivity.
    + destruct (IH w1) as [[Hr Hc] | (pre & m & post & e & Hm & Hr & Hc)].
      * left. cbn [result trace]. split; [exact Hr|].
        cbn [calls filter is_call map]. fold (calls (trace (run env (restore_mounts p c rest) w1))).
        rewrite Hc. reflexivity.
      * right. exists (mount :: pre), m, post, e. cbn [result trace].
        split; [rewrite Hm; reflexivity|]. split; [exact Hr|].
        cbn [calls filter is_call map app].
        fold (calls (trace (run env (restore_mounts p c rest) w1))).
        rewrite Hc. reflexivity.
Qed.

(** A pass is its loop between two readings of the clock; a failing loop
    returns at once. *)
Lemma run_processRebuild (p : Plugin) (c : provider.Provider) (w : W) :
  let o := run env (processRebuild p c) w in
  let l := run env (rebuild_mounts p c (Mount p)) (snd (env_now env w)) in
  result o = result l /\ calls (trace o) = calls (trace l) /\
  (result l <> None -> trace o = ENow (fst (env_now env w)) :: trace l /\ world o = world l).
Proof.
  cbn zeta. unfold processRebuild, time.Now. cbn [bind run].
  destruct (env_now env w) as [t0 w0]. cbn [fst snd].
  rewrite run_bind. cbn zeta.
  destruct (run env (rebuild_mounts p c (Mount p)) w0) as [[e|] tr w1]; cbn [result trace world].
  - cbn [run result trace world]. rewrite app_nil_r.
    split; [reflexivity|]. split; [reflexivity|]. intros _. split; reflexivity.
  - unfold time.Since, log.Printf. cbn [bind run].
    destruct (env_now env w1) as [t1 w2]. cbn [result trace world].
    split; [reflexivity|]. split; [|congruence].
    change (ENow t0 :: tr ++ [ENow t1; ELog "cache built in %v" [ADuration (t1 - t0)]])
      with ([ENow t0] ++ tr ++ [ENow t1; ELog "cache built in %v" [ADuration (t1 - t0)]]).
    rewrite !calls_app. cbn [calls filter is_call app]. apply app_nil_r.
Qed.

Lemma run_processRestore (p : Plugin) (c : provider.Provider) (w : W) :
  let o := run env (processRestore p c) w in
  let l := run env (restore_mounts p c (Mount p)) (snd (env_now env w)) in
  result o = result l /\ calls (trace o) = calls (trace l) /\
  (result l <> None -> trace o = ENow (fst (env_now env w)) :: trace l /\ world o = world l).
Proof.
  cbn zeta. unfold processRestore, time.Now. cbn [bind run].
  destruct (env_now env w) as [t0 w0]. cbn [fst snd].
  rewrite run_bind. cbn zeta.
  destruct (run env (restore_mounts p c (Mount p)) w0) as [[e|] tr w1]; cbn [result trace world].
  - cbn [run result trace world]. rewrite app_nil_r.
    split; [reflexivity|]. split; [reflexivity|]. intros _. split; reflexivity.
  - unfold time.Since, log.Printf. cbn [bind run].
    destruct (env_now env w1) as [t1 w2]. cbn [result trace world].
    split; [reflexivity|]. split; [|congruence].
    change (ENow t0 :: tr ++ [ENow t1; ELog "cache restored in %v" [ADuration (t1 - t0)]])
      with ([ENow t0] ++ tr ++ [ENow t1; ELog "cache restored in %v" [ADuration (t1 - t0)]]).
    rewrite !calls_app. cbn [calls filter is_call app]. apply app_nil_r.
Qed.

Lemma processRebuild_outcome (p : Plugin) (c : provider.Provider) (w : W) :
  pass_outcome (uploaded p c) (failed_upload p c) "could not upload" (Mount p)
    (run env (processRebuild p c) w).
Proof.
  destruct (run_processRebuild p c w) as (Hr & Hc & _).
  unfold pass_outcome. rewrite Hr, Hc. apply rebuild_mounts_outcome.
Qed.

Lemma processRestore_outcome (p : Plugin) (c : provider.Provider) (w : W) :
  pass_outcome (downloaded p c) (failed_download p c) "could not download" (Mount p)
    (run env (processRestore p c) w).
Proof.
  destruct (run_processRestore p c w) as (Hr & Hc & _).
  unfold pass_outcome. rewrite Hr, Hc. apply restore_mounts_outcome.
Qed.

(** [Exec] is the rebuild pass, when asked for, then the restore pass, when
    asked for and the rebuild pass did not fail, on the handle
    [Exec_provider]. *)
Lemma run_Exec (p : Plugin) (w : W) :
  run env (Exec p) w =
  let c := Exec_provider p in
  let o1 := if Rebuild p then run env (processRebuild p c) w else mkOutcome None [] w in
  match result o1 with
  | Some e => mkOutcome (Some (withMessage e "process rebuild failed")) (trace o1) (world o1)
  | None =>
      let o2 := if Restore p then run env (processRestore p c) (world o1)
                else mkOutcome None [] (world o1) in
      mkOutcome (errors.Wrap (result o2) "process restore failed")
                (trace o1 ++ trace o2) (world o2)
  end.
Proof.
  unfold Exec. cbn zeta. fold (Exec_provider p).
  cbv beta delta [Exec_provider]. cbn zeta.
  set (c := provider.NewS3 _ _ _ _).
  rewrite run_bind. cbn zeta.
  assert (E1 : run env (if Rebuild p then processRebuild p c else Ret None) w =
               (if Rebuild p then run env (processRebuild p c) w else mkOutcome None [] w))
    by (destruct (Rebuild p); reflexivity).
  rewrite E1. clear E1.
  set (o1 := if Rebuild p then _ else _).
  destruct (result o1) as [e|]; cbn [run errors.Wrap result trace world].
  - rewrite app_nil_r. reflexivity.
  - rewrite run_bind. cbn zeta.
    assert (E2 : run env (if Restore p then processRestore p c else Ret None) (world o1) =
                 (if Restore p then run env (processRestore p c) (world o1)
                  else mkOutcome None [] (world o1)))
      by (destruct (Restore p); reflexivity).
    rewrite E2. clear E2.
    set (o2 := if Restore p then _ else _).
    destruct (result o2) as [e|]; cbn [run errors.Wrap result trace world];
      rewrite app_nil_r; reflexivity.
Qed.

Lemma pass_outcome_Forall (P : Event -> Prop) (ok : string -> Event)
  (ko : string -> error -> Event) (message : string) (mounts : list string)
  (o : Outcome (option error) W) :
  pass_outcome ok ko message mounts o ->
  (forall m, In m mounts -> P (ok m)) ->
  (forall m e, In m mounts -> P (ko m e)) ->
  Forall P (calls (trace o)).
Proof.
  intros [[_ Hc] | (pre & m & post & e & Hm & _ & Hc)] Hok Hko; rewrite Hc.
  - apply Forall_forall. intros ev Hin. apply in_map_iff in Hin.
    destruct Hin as (m & <- & Hin). apply Hok, Hin.
  - apply Forall_app. split.
    + apply Forall_forall. intros ev Hin. apply in_map_iff in Hin.
      destruct Hin as (m' & <- & Hin). apply Hok. rewrite Hm.
      apply in_or_app. left. exact Hin.
    + constructor; [|constructor]. apply Hko. rewrite Hm.
      apply in_or_app. right. left. reflexivity.
Qed.

(** When a call of a pass got an error, the pass is the failing case of
    [pass_outcome], and the call is its last one. *)
Lemma pass_outcome_failed (ok : string -> Event) (ko : string -> error -> Event)
  (message : string) (mounts : list string) (o : Outcome (option error) W)
  (ev : Event) (e : error) :
  pass_outcome ok ko message mounts o ->
  (forall m, answer (ok m) = None) ->
  (forall m e', answer (ko m e') = Some e') ->
  In ev (calls (trace o)) -> answer ev = Some e ->
  exists pre m post,
    mounts = pre ++ m :: post /\ ev = ko m e /\
    result o = Some (withMessage e message) /\
    calls (trace o) = map ok pre ++ [ko m e].
Proof.
  intros [[_ Hc] | (pre & m & post & e' & Hm & Hr & Hc)] Hok Hko Hin Ha;
    rewrite Hc in Hin.
  - apply in_map_iff in Hin. destruct Hin as (m & <- & _).
    rewrite Hok in Ha. discriminate.
  - apply in_app_or in Hin. destruct Hin as [Hin | [<- | []]].
    + apply in_map_iff in Hin. destruct Hin as (m' & <- & _).
      rewrite Hok in Ha. discriminate.
    + rewrite Hko in Ha. injection Ha as ->.
      exists pre, m, post. repeat split; assumption.
Qed.

Lemma in_calls (ev : Event) (tr : list Event) :
  In ev tr -> is_call ev = true -> In ev (calls tr).
Proof. intros Hin Hc. apply filter_In. split; assumption. Qed.

(** C3. In a run of [processRebuild], when an upload fails with [e]: the
    pass returns [e] wrapped with "could not upload"; the mounts before the
    failing one were uploaded, in order, and the failing upload is the last
    provider operation of the run, so no later mount is attempted and
    nothing is done to the earlier uploads; the world is the one these calls
    leave. *)
Theorem processRebuild_fail_fast (p : Plugin) (c : provider.Provider) (w : W)
  (c' : provider.Provider) (src dst : string) (e : error) :
  let o := run env (processRebuild p c) w in
  In (EUpload c' src dst (Some e)) (trace o) ->
  result o = Some (withMessage e "could not upload") /\
  errors.Cause (withMessage e "could not upload") = errors.Cause e /\
  (exists pre post,
     Mount p = pre ++ src :: post /\
     calls (trace o) = map (uploaded p c) pre ++ [failed_upload p c src e]) /\
  world o = replay env (trace o) w.
Proof.
  intros o Hin.
  destruct (pass_outcome_failed _ _ _ _ o _ e (processRebuild_outcome p c w)
              (fun _ => eq_refl) (fun _ _ => eq_refl)
              (in_calls _ _ Hin eq_refl) eq_refl)
    as (pre & m & post & Hm & Hev & Hr & Hc).
  injection Hev as -> -> ->.
  split; [exact Hr|]. split; [reflexivity|]. split.
  - exists pre, post. split; assumption.
  - apply run_replay.
Qed.

(** C5. In a run of [processRestore], a download that fails with any error
    [e], [NotFound] like every other, ends the pass: it returns [e] wrapped
    with "could not download", and the failing download is the last provider
    operation of the run, after the downloads of the mounts before it. *)
Theorem processRestore_fail_fast (p : Plugin) (c : provider.Provider) (w : W)
  (c' : provider.Provider) (src dst : string) (e : error) :
  let o := run env (processRestore p c) w in
  In (EDownload c' src dst (Some e)) (trace o) ->
  result o = Some (withMessage e "could not download") /\
  (exists pre post,
     Mount p = pre ++ dst :: post /\
     calls (trace o) = map (downloaded p c) pre ++ [failed_download p c dst e]).
Proof.
  intros o Hin.
  destruct (pass_outcome_failed _ _ _ _ o _ e (processRestore_outcome p c w)
              (fun _ => eq_refl) (fun _ _ => eq_refl)
              (in_calls _ _ Hin eq_refl) eq_refl)
    as (pre & m & post & Hm & Hev & Hr & Hc).
  injection Hev as -> -> ->.
  split; [exact Hr|]. exists pre, post. split; assumption.
Qed.

(** C6. With neither flag set, [Exec] makes no call at all, leaves the
    world as it was and returns [nil]. *)
Theorem Exec_no_flags (p : Plugin) (w : W) :
  Rebuild p = false -> Restore p = false ->
  run env (Exec p) w = mkOutcome None [] w.
Proof.
  intros Hb Hs. rewrite run_Exec. cbn zeta. rewrite Hb, Hs. reflexivity.
Qed.

(** C7. With both flags set, the provider operations of a run of [Exec] are
    one of three sequences: the uploads up to a failing one and no download,
    with the rebuild error returned under "process rebuild failed"; or the
    uploads of all the mounts followed by the downloads up to a failing one,
    with the restore error returned under "process restore failed"; or the
    uploads of all the mounts followed by the downloads of all the mounts,
    and [nil].  So a download is made only after every upload was. *)
Theorem Exec_rebuild_then_restore (p : Plugin) (w : W) :
  Rebuild p = true -> Restore p = true ->
  let o := run env (Exec p) w in
  let c := Exec_provider p in
  (exists pre m post e,
     Mount p = pre ++ m :: post /\
     calls (trace o) = map (uploaded p c) pre ++ [failed_upload p c m e] /\
     result o = Some (withMessage (withMessage e "could not upload")
                                  "process rebuild failed"))
  \/ (exists pre m post e,
        Mount p = pre ++ m :: post /\
        calls (trace o) = map (uploaded p c) (Mount p) ++
                          map (downloaded p c) pre ++ [failed_download p c m e] /\
        result o = Some (withMessage (withMessage e "could not download")
                                     "process restore failed"))
  \/ (calls (trace o) = map (uploaded p c) (Mount p) ++ map (downloaded p c) (Mount p) /\
      result o = None).
Proof.
  intros Hb Hs o c. subst o. rewrite run_Exec. cbn zeta. rewrite Hb, Hs. fold c.
  destruct (processRebuild_outcome p c w)
    as [[Hr1 Hc1] | (pre & m & post & e & Hm & Hr1 & Hc1)]; rewrite Hr1.
  - set (w1 := world (run env (processRebuild p c) w)).
    destruct (processRestore_outcome p c w1)
      as [[Hr2 Hc2] | (pre & m & post & e & Hm & Hr2 & Hc2)];
      cbn [result trace]; rewrite Hr2, calls_app, Hc1, Hc2.
    + right. right. split; reflexivity.
    + right. left. exists pre, m, post, e. repeat split. exact Hm.
  - left. exists pre, m, post, e. cbn [result trace]. repeat split; assumption.
Qed.

(** C10. With no mount configured, each pass makes no provider operation
    and returns [nil], and so does [Exec], whatever the two flags. *)
Theorem no_mounts_no_calls (p : Plugin) (c : provider.Provider) (w : W) :
  Mount p = [] ->
  (result (run env (processRebuild p c) w) = None /\
   calls (trace (run env (processRebuild p c) w)) = []) /\
  (result (run env (processRestore p c) w) = None /\
   calls (trace (run env (processRestore p c) w)) = []) /\
  (result (run env (Exec p) w) = None /\
   calls (trace (run env (Exec p) w)) = []).
Proof.
  intros Hm.
  assert (Hb : forall c0 w0, result (run env (processRebuild p c0) w0) = None /\
                             calls (trace (run env (processRebuild p c0) w0)) = []).
  { intros c0 w0.
    destruct (processRebuild_outcome p c0 w0)
      as [[Hr Hc] | (pre & m & post & e & Hm' & _)].
    - rewrite Hm in Hc. split; assumption.
    - rewrite Hm in Hm'. destruct pre; discriminate. }
  assert (Hs : forall c0 w0, result (run env (processRestore p c0) w0) = None /\
                             calls (trace (run env (processRestore p c0) w0)) = []).
  { intros c0 w0.
    destruct (processRestore_outcome p c0 w0)
      as [[Hr Hc] | (pre & m & post & e & Hm' & _)].
    - rewrite Hm in Hc. split; assumption.
    - rewrite Hm in Hm'. destruct pre; discriminate. }
  split; [apply Hb|]. split; [apply Hs|].
  rewrite run_Exec. cbn zeta.
  set (c1 := Exec_provider p).
  destruct (Rebuild p), (Restore p).
  - destruct (Hb c1 w) as [Hr1 Hc1]. rewrite Hr1.
    destruct (Hs c1 (world (run env (processRebuild p c1) w))) as [Hr2 Hc2].
    cbn [result trace]. rewrite Hr2, calls_app, Hc1, Hc2. split; reflexivity.
  - destruct (Hb c1 w) as [Hr1 Hc1]. rewrite Hr1.
    cbn [result trace errors.Wrap]. rewrite app_nil_r. split; [reflexivity|exact Hc1].
  - cbn [result trace world app].
    destruct (Hs c1 w) as [Hr2 Hc2]. rewrite Hr2. split; [reflexivity|exact Hc2].
  - split; reflexivity.
Qed.



(** C4. Every upload of [processRebuild] and every download of
    [processRestore] is made for a mount of the list, at the path
    [Join(Repo, hash(mount, Branch))]: the two passes address a mount's
    object by the same path.  For one mount and two branches, the two paths
    are equal exactly when the MD5 digests of mount ++ branch are. *)
Theorem remote_path_is_join (p : Plugin) (c : provider.Provider) (w1 w2 : W) :
  Forall (fun ev => exists m r, In m (Mount p) /\
            ev = EUpload c m (filepath.Join [Repo p; hash m (Branch p)]) r)
         (calls (trace (run env (processRebuild p c) w1)))
  /\ Forall (fun ev => exists m r, In m (Mount p) /\
            ev = EDownload c (filepath.Join [Repo p; hash m (Branch p)]) m r)
         (calls (trace (run env (processRestore p c) w2)))
  /\ (forall repo m b1 b2,
        filepath.Join [repo; hash m b1] = filepath.Join [repo; hash m b2] <->
        md5.digest_of (list_byte_of_string (m ++ b1)) =
        md5.digest_of (list_byte_of_string (m ++ b2))).
Proof.
  split; [|split].
  - apply (pass_outcome_Forall _ _ _ _ _ _ (processRebuild_outcome p c w1)).
    + intros m Hin. exists m, None. split; [exact Hin|reflexivity].
    + intros m e Hin. exists m, (Some e). split; [exact Hin|reflexivity].
  - apply (pass_outcome_Forall _ _ _ _ _ _ (processRestore_outcome p c w2)).
    + intros m Hin. exists m, None. split; [exact Hin|reflexivity].
    + intros m e Hin. exists m, (Some e). split; [exact Hin|reflexivity].
  - intros repo m b1 b2. rewrite <- hash_eq_iff. split.
    + apply filepath_facts.Join_key_inj; apply hash_is_key.
    + intros ->. reflexivity.
Qed.



End Runs.

(** C2, as amended. Two keys are equal exactly when the MD5 digests of the
    two concatenations mount ++ branch are.  Pairs with the same
    concatenation have the same key; pairs that differ in the branch alone,
    or in the mount alone, have different concatenations. *)
Theorem hash_equal_iff_digest (m1 b1 m2 b2 : string) :
  (hash m1 b1 = hash m2 b2 <->
   md5.digest_of (list_byte_of_string (m1 ++ b1)) =
   md5.digest_of (list_byte_of_string (m2 ++ b2)))
  /\ (m1 ++ b1 = m2 ++ b2 -> hash m1 b1 = hash m2 b2)
  /\ (m1 = m2 -> b1 <> b2 -> m1 ++ b1 <> m2 ++ b2)
  /\ (b1 = b2 -> m1 <> m2 -> m1 ++ b1 <> m2 ++ b2).
Proof.
  split; [|split; [|split]].
  - apply hash_eq_iff.
  - intros H. apply hash_eq_iff. rewrite H. reflexivity.
  - intros -> Hne H. apply Hne. apply append_inv_head in H. exact H.
  - intros -> Hne H. apply Hne. apply append_inv_tail in H. exact H.
Qed.

(** Two different (mount, branch) pairs with one concatenation, and so one
    key. *)
Lemma hash_collision_no_separator :
  ("a" <> "ab" /\ "bc" <> "c") /\ "a" ++ "bc" = "ab" ++ "c" /\
  hash "a" "bc" = hash "ab" "c".
Proof.
  split; [split; discriminate|]. split; [reflexivity|].
  vm_compute. reflexivity.
Qed.

(** One mount and two different branches with one remote path. *)
Lemma same_path_two_branches :
  collision.branch1 <> collision.branch2 /\
  filepath.Join ["myrepo"; hash collision.mount collision.branch1] =
  filepath.Join ["myrepo"; hash collision.mount collision.branch2].
Proof.
  split.
  - intros H. apply (f_equal list_byte_of_string) in H.
    unfold collision.branch1, collision.branch2 in H.
    rewrite !list_byte_of_string_of_list_byte in H.
    vm_compute in H. discriminate H.
  - vm_compute. reflexivity.
Qed.

(** ** Concrete runs *)

(** The RFC 1321 test suite, on the one-shot digest and through [hash]
    (split between mount and branch, also across a block boundary). *)
Example md5_test_suite :
  map (fun m => Sprintf_x (md5.digest_of (list_byte_of_string m)))
      [""; "a"; "abc"; "message digest"; "abcdefghijklmnopqrstuvwxyz";
       "ABCDEFGHIJKLMNOPQRSTUVWXYZabcdefghijklmnopqrstuvwxyz0123456789";
       "12345678901234567890123456789012345678901234567890123456789012345678901234567890"]
  = ["d41d8cd98f00b204e9800998ecf8427e"; "0cc175b9c0f1b6a831c399e269772661";
     "900150983cd24fb0d6963f7d28e17f72"; "f96b697d7cb7938d525a2f31aaf161d0";
     "c3fcd3d76192e4007dfb496cca67e13b"; "d174ab98d277d9f5a5611c2c9f419d9f";
     "57edf4a22be3c955ac49da2e2107b67a"].
Proof. vm_compute. reflexivity. Qed.

Example hash_test_suite :
  [hash "" ""; hash "message " "digest";
   hash "1234567890123456789012345678901234567890123456789012345"
        "6789012345678901234567890";
   hash "./dist" "main"]
  = ["d41d8cd98f00b204e9800998ecf8427e"; "f96b697d7cb7938d525a2f31aaf161d0";
     "57edf4a22be3c955ac49da2e2107b67a"; "8bae159b2cd728825cfc02d7b2235987"].
Proof. vm_compute. reflexivity. Qed.

(** Cases of the test table of Go's [path/filepath] for [Clean], and some
    of [Join]. *)
Example Clean_test_table :
  map filepath.Clean
      ["abc"; "abc/def"; "."; ".."; "../.."; "../../abc"; "/abc"; "/"; "";
       "abc/"; "./"; "../"; "/abc/"; "abc//def//ghi"; "//abc"; "//abc//";
       "abc/./def"; "/./abc/def"; "abc/."; "abc/def/ghi/../jkl";
       "abc/def/../ghi/../jkl"; "abc/def/.."; "abc/def/../.."; "/abc/def/../..";
       "abc/def/../../.."; "/abc/def/../../..";
       "abc/def/../../../ghi/jkl/../../../mno"; "/../abc"; "abc/./../def";
       "abc//./../def"; "abc/../../././../def"]
  = ["abc"; "abc/def"; "."; ".."; "../.."; "../../abc"; "/abc"; "/"; ".";
     "abc"; "."; ".."; "/abc"; "abc/def/ghi"; "/abc"; "/abc";
     "abc/def"; "/abc/def"; "abc"; "abc/def/jkl";
     "abc/jkl"; "abc"; "."; "/";
     ".."; "/";
     "../../mno"; "/abc"; "def";
     "def"; "../../def"].
Proof. vm_compute. reflexivity. Qed.

Example Join_test_table :
  map filepath.Join [["a"; "b"]; ["a"; ""]; [""; "b"]; [""; ""]; ["/"; "a"];
                     ["a/"; "b"]; ["a"; "../b"]]
  = ["a/b"; "a"; "b"; ""; "/a"; "a/b"; "b"].
Proof. vm_compute. reflexivity. Qed.

(** The mount [./dist] on branch [main] under the namespace [myrepo]. *)
Example remotePath_dist :
  remotePath (memory.plugin ["./dist"] true true) "./dist"
  = "myrepo/8bae159b2cd728825cfc02d7b2235987".
Proof. vm_compute. reflexivity. Qed.

(** Three mounts, the second of which cannot be archived: the first upload
    stays in the store, the third mount is not attempted. *)
Lemma processRebuild_fail_fast_witness :
  let p := memory.plugin ["a"; "missing"; "c"] true false in
  let c := Exec_provider p in
  let e := Failure ArchiveFailure "no such directory" in
  let o := run memory.env (processRebuild p c) memory.empty in
  In (failed_upload p c "missing" e) (trace o) /\
  result o = Some (withMessage e "could not upload") /\
  calls (trace o) = [uploaded p c "a"; failed_upload p c "missing" e] /\
  memory.objects (world o) = [remotePath p "a"].
Proof.
  cbn zeta.
  assert (Hin : In (failed_upload (memory.plugin ["a"; "missing"; "c"] true false)
                      (Exec_provider (memory.plugin ["a"; "missing"; "c"] true false))
                      "missing" (Failure ArchiveFailure "no such directory"))
                   (trace (run memory.env
                             (processRebuild (memory.plugin ["a"; "missing"; "c"] true false)
                                (Exec_provider (memory.plugin ["a"; "missing"; "c"] true false)))
                             memory.empty)))
    by (vm_compute; tauto).
  split; [exact Hin|].
  destruct (processRebuild_fail_fast memory.env _ _ _ _ _ _ _ Hin) as (Hr & _ & _ & _).
  split; [exact Hr|]. split; vm_compute; reflexivity.
Defined.

(** Two mounts restored from an empty store: the first download answers
    [NotFound], which ends the pass; the second mount is not attempted. *)
Lemma processRestore_fail_fast_witness :
  let p := memory.plugin ["a"; "b"] false true in
  let c := Exec_provider p in
  let e := Failure NotFound "no such key" in
  let o := run memory.env (processRestore p c) memory.empty in
  In (failed_download p c "a" e) (trace o) /\
  result o = Some (withMessage e "could not download") /\
  calls (trace o) = [failed_download p c "a" e].
Proof.
  cbn zeta.
  assert (Hin : In (failed_download (memory.plugin ["a"; "b"] false true)
                      (Exec_provider (memory.plugin ["a"; "b"] false true))
                      "a" (Failure NotFound "no such key"))
                   (trace (run memory.env
                             (processRestore (memory.plugin ["a"; "b"] false true)
                                (Exec_provider (memory.plugin ["a"; "b"] false true)))
                             memory.empty)))
    by (vm_compute; tauto).
  split; [exact Hin|].
  destruct (processRestore_fail_fast memory.env _ _ _ _ _ _ _ Hin) as (Hr & _).
  split; [exact Hr|]. vm_compute. reflexivity.
Defined.

(** A plugin with a mount and neither flag. *)
Lemma Exec_no_flags_witness :
  run memory.env (Exec (memory.plugin ["a"] false false)) memory.empty
  = mkOutcome None [] memory.empty.
Proof.
  apply (Exec_no_flags memory.env (memory.plugin ["a"] false false) memory.empty);
    reflexivity.
Defined.

(** Two mounts, both flags: two uploads, then two downloads. *)
Lemma Exec_rebuild_then_restore_witness :
  let p := memory.plugin ["a"; "b"] true true in
  let c := Exec_provider p in
  let o := run memory.env (Exec p) memory.empty in
  (calls (trace o) = [uploaded p c "a"; uploaded p c "b";
                      downloaded p c "a"; downloaded p c "b"] /\
   result o = None) /\
  ((exists pre m post e,
      Mount p = (pre ++ m :: post)%list /\
      calls (trace o) = (map (uploaded p c) pre ++ [failed_upload p c m e])%list /\
      result o = Some (withMessage (withMessage e "could not upload")
                                   "process rebuild failed"))
   \/ (exists pre m post e,
         Mount p = (pre ++ m :: post)%list /\
         calls (trace o) = (map (uploaded p c) (Mount p) ++
                            map (downloaded p c) pre ++ [failed_download p c m e])%list /\
         result o = Some (withMessage (withMessage e "could not download")
                                      "process restore failed"))
   \/ (calls (trace o) = (map (uploaded p c) (Mount p) ++
                          map (downloaded p c) (Mount p))%list /\
       result o = None)).
Proof.
  cbn zeta. split.
  - split; vm_compute; reflexivity.
  - apply (Exec_rebuild_then_restore memory.env (memory.plugin ["a"; "b"] true true)
             memory.empty); reflexivity.
Defined.

(** No mount, both flags. *)
Lemma no_mounts_no_calls_witness :
  let p := memory.plugin [] true true in
  result (run memory.env (Exec p) memory.empty) = None /\
  calls (trace (run memory.env (Exec p) memory.empty)) = [].
Proof.
  cbn zeta.
  apply (no_mounts_no_calls memory.env (memory.plugin [] true true)
           (Exec_provider (memory.plugin [] true true)) memory.empty).
  reflexivity.
Defined.

(** * Further properties *)

(** ** The whole trace of a pass *)

Section Traces.
Context {W : Type} (env : Env W).
Local Open Scope list_scope.

Lemma rebuild_mounts_trace (p : Plugin) (c : provider.Provider)
  (mounts : list string) (w : W) :
  let o := run env (rebuild_mounts p c mounts) w in
  (result o = None /\
   trace o = flat_map (fun m => [announce_upload p m; uploaded p c m]) mounts)
  \/ (exists pre m post e,
        mounts = pre ++ m :: post /\
        result o = Some (withMessage e "could not upload") /\
        trace o = flat_map (fun m => [announce_upload p m; uploaded p c m]) pre ++
                  [announce_upload p m; failed_upload p c m e]).
Proof.
  cbn zeta. revert w. induction mounts as [|mount rest IH]; intros w.
  - left. split; reflexivity.
  - cbn [rebuild_mounts]. cbn zeta. fold (remotePath p mount).
    unfold log.Printf, cache.Upload. cbn [bind run].
    destruct (env_upload env c mount (remotePath p mount) _) as [[e|] w1].
    + right. exists [], mount, rest, e. split; [reflexivity|]. split; reflexivity.
    + destruct (IH w1) as [[Hr Ht] | (pre & m & post & e & Hm & Hr & Ht)].
      * left. cbn [result trace flat_map app]. split; [exact Hr|].
        rewrite Ht. reflexivity.
      * right. exists (mount :: pre), m, post, e. cbn [result trace flat_map app].
        split; [rewrite Hm; reflexivity|]. split; [exact Hr|].
        rewrite Ht. reflexivity.
Qed.

Lemma restore_mounts_trace (p : Plugin) (c : provider.Provider)
  (mounts : list string) (w : W) :
  let o := run env (restore_mounts p c mounts) w in
  (result o = None /\
   trace o = flat_map (fun m => [announce_download p m; downloaded p c m]) mounts)
  \/ (exists pre m post e,
        mounts = pre ++ m :: post /\
        result o = Some (withMessage e "could not download") /\
        trace o = flat_map (fun m => [announce_download p m; downloaded p c m]) pre ++
                  [announce_download p m; failed_download p c m e]).
Proof.
  cbn zeta. revert w. induction mounts as [|mount rest IH]; intros w.
  - left. split; reflexivity.
  - cbn [restore_mounts]. cbn zeta. fold (remotePath p mount).
    unfold log.Printf, cache.Download. cbn [bind run].
    destruct (env_download env c (remotePath p mount) mount _) as [[e|] w1].
    + right. exists [], mount, rest, e. split; [reflexivity|]. split; reflexivity.
    + destruct (IH w1) as [[Hr Ht] | (pre & m & post & e & Hm & Hr & Ht)].
      * left. cbn [result trace flat_map app]. split; [exact Hr|].
        rewrite Ht. reflexivity.
      * right. exists (mount :: pre), m, post, e. cbn [result trace flat_map app].
        split; [rewrite Hm; reflexivity|]. split; [exact Hr|].
        rewrite Ht. reflexivity.
Qed.

(** X1. Every call of a run of [processRebuild], in order: the clock is
    read once; each mount is announced by its log line and then uploaded,
    in the order of the list; after the last mount the clock is read again
    and the summary line carries the difference of the two readings.  When
    an upload fails, the failing upload ends the trace: the clock is not
    read again and no summary line is written. *)
Theorem processRebuild_trace (p : Plugin) (c : provider.Provider) (w : W) :
  let o := run env (processRebuild p c) w in
  let t0 := fst (env_now env w) in
  (exists t1,
     result o = None /\
     trace o = ENow t0 ::
               flat_map (fun m => [announce_upload p m; uploaded p c m]) (Mount p) ++
               [ENow t1; ELog "cache built in %v" [ADuration (t1 - t0)]])
  \/ (exists pre m post e,
        Mount p = pre ++ m :: post /\
        result o = Some (withMessage e "could not upload") /\
        trace o = ENow t0 ::
                  flat_map (fun m => [announce_upload p m; uploaded p c m]) pre ++
                  [announce_upload p m; failed_upload p c m e]).
Proof.
  cbn zeta. unfold processRebuild, time.Now. cbn [bind run].
  destruct (env_now env w) as [t0 w0]. cbn [fst].
  rewrite run_bind. cbn zeta.
  destruct (rebuild_mounts_trace p c (Mount p) w0)
    as [[Hr Ht] | (pre & m & post & e & Hm & Hr & Ht)]; rewrite Hr, Ht.
  - left. unfold time.Since, log.Printf. cbn [bind run].
    destruct (env_now env _) as [t1 w2]. cbn [result trace].
    exists t1. split; reflexivity.
  - right. exists pre, m, post, e. cbn [run result trace].
    rewrite app_nil_r. split; [exact Hm|]. split; reflexivity.
Qed.

(** X2. Every call of a run of [processRestore], in order: as for the
    rebuild pass, with the download of the remote path into the mount
    (source and destination exchanged), the restore log line and the
    restore summary. *)
Theorem processRestore_trace (p : Plugin) (c : provider.Provider) (w : W) :
  let o := run env (processRestore p c) w in
  let t0 := fst (env_now env w) in
  (exists t1,
     result o = None /\
     trace o = ENow t0 ::
               flat_map (fun m => [announce_download p m; downloaded p c m]) (Mount p) ++
               [ENow t1; ELog "cache restored in %v" [ADuration (t1 - t0)]])
  \/ (exists pre m post e,
        Mount p = pre ++ m :: post /\
        result o = Some (withMessage e "could not download") /\
        trace o = ENow t0 ::
                  flat_map (fun m => [announce_download p m; downloaded p c m]) pre ++
                  [announce_download p m; failed_download p c m e]).
Proof.
  cbn zeta. unfold processRestore, time.Now. cbn [bind run].
  destruct (env_now env w) as [t0 w0]. cbn [fst].
  rewrite run_bind. cbn zeta.
  destruct (restore_mounts_trace p c (Mount p) w0)
    as [[Hr Ht] | (pre & m & post & e & Hm & Hr & Ht)]; rewrite Hr, Ht.
  - left. unfold time.Since, log.Printf. cbn [bind run].
    destruct (env_now env _) as [t1 w2]. cbn [result trace].
    exists t1. split; reflexivity.
  - right. exists pre, m, post, e. cbn [run result trace].
    rewrite app_nil_r. split; [exact Hm|]. split; reflexivity.
Qed.

End Traces.

(** ** Runs of [Exec] under any flags *)

Section ExecRuns.
Context {W : Type} (env : Env W).
Local Open Scope list_scope.

(** A pass either ends well after calls that all succeeded, or with the
    one failing call last. *)
Lemma pass_outcome_last (ok : string -> Event) (ko : string -> error -> Event)
  (message : string) (mounts : list string) (o : Outcome (option error) W) :
  pass_outcome ok ko message mounts o ->
  (forall m, answer (ok m) = None) ->
  (result o = None /\ Forall (fun ev => answer ev = None) (calls (trace o)))
  \/ (exists oks m e,
        calls (trace o) = oks ++ [ko m e] /\
        Forall (fun ev => answer ev = None) oks /\
        result o = Some (withMessage e message)).
Proof.
  intros [[Hr Hc] | (pre & m & post & e & _ & Hr & Hc)] Hok.
  - left. split; [exact Hr|]. rewrite Hc. apply Forall_forall.
    intros ev Hin. apply in_map_iff in Hin. destruct Hin as (m & <- & _). apply Hok.
  - right. exists (map ok pre), m, e. split; [exact Hc|]. split; [|exact Hr].
    apply Forall_forall. intros ev Hin. apply in_map_iff in Hin.
    destruct Hin as (m' & <- & _). apply Hok.
Qed.

Lemma pass_outcome_length (ok : string -> Event) (ko : string -> error -> Event)
  (message : string) (mounts : list string) (o : Outcome (option error) W) :
  pass_outcome ok ko message mounts o ->
  (List.length (calls (trace o)) <= List.length mounts)%nat.
Proof.
  intros [[_ Hc] | (pre & m & post & e & Hm & _ & Hc)]; rewrite Hc.
  - rewrite length_map. apply Nat.le_refl.
  - rewrite Hm, !length_app, length_map. cbn [List.length]. lia.
Qed.

(** The three ways a run of [Exec] ends. *)
Lemma Exec_cases (p : Plugin) (w : W) :
  let o := run env (Exec p) w in
  let c := Exec_provider p in
  (result o = None /\ Forall (fun ev => answer ev = None) (calls (trace o)))
  \/ (exists oks m e,
        calls (trace o) = oks ++ [failed_upload p c m e] /\
        Forall (fun ev => answer ev = None) oks /\
        result o = Some (withMessage (withMessage e "could not upload")
                                     "process rebuild failed"))
  \/ (exists oks m e,
        calls (trace o) = oks ++ [failed_download p c m e] /\
        Forall (fun ev => answer ev = None) oks /\
        result o = Some (withMessage (withMessage e "could not download")
                                     "process restore failed")).
Proof.
  cbn zeta. rewrite run_Exec. cbn zeta. set (c := Exec_provider p).
  assert (H1 := fun w0 => pass_outcome_last _ _ _ _ _
                            (processRebuild_outcome env p c w0) (fun _ => eq_refl)).
  assert (H2 := fun w0 => pass_outcome_last _ _ _ _ _
                            (processRestore_outcome env p c w0) (fun _ => eq_refl)).
  destruct (Rebuild p), (Restore p).
  - destruct (H1 w) as [[Hr1 Hc1] | (oks & m & e & Hc1 & Hoks & Hr1)]; rewrite Hr1.
    + cbn [result trace]. rewrite calls_app.
      destruct (H2 (world (run env (processRebuild p c) w)))
        as [[Hr2 Hc2] | (oks & m & e & Hc2 & Hoks & Hr2)]; rewrite Hr2.
      * left. split; [reflexivity|]. apply Forall_app. split; assumption.
      * right. right. exists (calls (trace (run env (processRebuild p c) w)) ++ oks), m, e.
        rewrite Hc2, app_assoc. split; [reflexivity|]. split; [|reflexivity].
        apply Forall_app. split; assumption.
    + right. left. exists oks, m, e. cbn [result trace].
      split; [exact Hc1|]. split; [exact Hoks|reflexivity].
  - destruct (H1 w) as [[Hr1 Hc1] | (oks & m & e & Hc1 & Hoks & Hr1)]; rewrite Hr1.
    + left. cbn [result trace errors.Wrap]. rewrite app_nil_r.
      split; [reflexivity|exact Hc1].
    + right. left. exists oks, m, e. cbn [result trace].
      split; [exact Hc1|]. split; [exact Hoks|reflexivity].
  - cbn [result trace world app].
    destruct (H2 w) as [[Hr2 Hc2] | (oks & m & e & Hc2 & Hoks & Hr2)]; rewrite Hr2.
    + left. split; [reflexivity|exact Hc2].
    + right. right. exists oks, m, e.
      split; [exact Hc2|]. split; [exact Hoks|reflexivity].
  - left. split; [reflexivity|constructor].
Qed.

Lemma Forall_removelast {A : Type} (P : A -> Prop) (l : list A) :
  Forall P l -> Forall P (removelast l).
Proof.
  induction 1 as [|a l Ha Hl IH]; [constructor|].
  cbn [removelast]. destruct l; [constructor|].
  constructor; assumption.
Qed.

(** X3. The text of the error [Exec] returns names the phase and the step
    before the text of the error the provider operation answered, and its
    cause is the cause of that error. *)
Theorem Exec_error_message (p : Plugin) (w : W) (err : error) :
  let o := run env (Exec p) w in
  result o = Some err ->
  exists ev e,
    In ev (calls (trace o)) /\ answer ev = Some e /\
    errors.Cause err = errors.Cause e /\
    ((is_upload ev = true /\
      Error err = ("process rebuild failed: could not upload: " ++ Error e)%string)
     \/ (is_download ev = true /\
         Error err = ("process restore failed: could not download: " ++ Error e)%string)).
Proof.
  cbn zeta. intros Hres.
  destruct (Exec_cases p w)
    as [[Hr _] | [(oks & m & e & Hc & _ & Hr) | (oks & m & e & Hc & _ & Hr)]];
    rewrite Hr in Hres; [discriminate| |]; injection Hres as <-.
  - exists (failed_upload p (Exec_provider p) m e), e.
    split; [rewrite Hc; apply in_or_app; right; left; reflexivity|].
    split; [reflexivity|]. split; [reflexivity|].
    left. split; reflexivity.
  - exists (failed_download p (Exec_provider p) m e), e.
    split; [rewrite Hc; apply in_or_app; right; left; reflexivity|].
    split; [reflexivity|]. split; [reflexivity|].
    right. split; reflexivity.
Qed.

(** X4. In every run of [Exec], under any flags, every provider operation
    but the last one succeeded, and [Exec] returns [nil] exactly when all of
    them did: the run stops at the first failure, without a retry. *)
Theorem Exec_stops_at_first_failure (p : Plugin) (w : W) :
  let o := run env (Exec p) w in
  Forall (fun ev => answer ev = None) (removelast (calls (trace o)))
  /\ (result o = None <->
      Forall (fun ev => answer ev = None) (calls (trace o))).
Proof.
  cbn zeta.
  destruct (Exec_cases p w)
    as [[Hr Hall] | [(oks & m & e & Hc & Hoks & Hr) | (oks & m & e & Hc & Hoks & Hr)]].
  - split; [apply Forall_removelast, Hall|]. split; [intros _; exact Hall|intros _; exact Hr].
  - rewrite Hc, removelast_last, Hr. split; [exact Hoks|].
    split; [discriminate|]. intros Hall. apply Forall_app in Hall.
    destruct Hall as [_ Hall]. inversion Hall as [|? ? Ha _]. discriminate Ha.
  - rewrite Hc, removelast_last, Hr. split; [exact Hoks|].
    split; [discriminate|]. intros Hall. apply Forall_app in Hall.
    destruct Hall as [_ Hall]. inversion Hall as [|? ? Ha _]. discriminate Ha.
Qed.

(** X5. Without the rebuild flag, [Exec] makes no upload. *)
Theorem Exec_restore_only (p : Plugin) (w : W) :
  Rebuild p = false ->
  Forall (fun ev => is_download ev = true) (calls (trace (run env (Exec p) w))).
Proof.
  intros Hb. rewrite run_Exec. cbn zeta. rewrite Hb. cbn [result trace world app].
  assert (H : Forall (fun ev => is_download ev = true)
                     (calls (trace (run env (processRestore p (Exec_provider p)) w)))).
  { apply (pass_outcome_Forall _ _ _ _ _ _
             (processRestore_outcome env p (Exec_provider p) w)); reflexivity. }
  destruct (Restore p); [exact H|constructor].
Qed.

(** X6. Without the restore flag, [Exec] makes no download. *)
Theorem Exec_rebuild_only (p : Plugin) (w : W) :
  Restore p = false ->
  Forall (fun ev => is_upload ev = true) (calls (trace (run env (Exec p) w))).
Proof.
  intros Hs. rewrite run_Exec. cbn zeta. rewrite Hs.
  assert (H : Forall (fun ev => is_upload ev = true)
                     (calls (trace (run env (processRebuild p (Exec_provider p)) w)))).
  { apply (pass_outcome_Forall _ _ _ _ _ _
             (processRebuild_outcome env p (Exec_provider p) w)); reflexivity. }
  destruct (Rebuild p).
  - destruct (result (run env (processRebuild p (Exec_provider p)) w));
      cbn [trace]; rewrite ?app_nil_r; exact H.
  - constructor.
Qed.

(** X7. [Exec] makes at most one provider operation for each mount of the
    list in each pass the flags ask for. *)
Theorem Exec_one_attempt_per_mount (p : Plugin) (w : W) :
  (List.length (calls (trace (run env (Exec p) w))) <=
   passes p * List.length (Mount p))%nat.
Proof.
  rewrite run_Exec. cbn zeta. unfold passes. set (c := Exec_provider p).
  assert (H1 := fun w0 => pass_outcome_length _ _ _ _ _ (processRebuild_outcome env p c w0)).
  assert (H2 := fun w0 => pass_outcome_length _ _ _ _ _ (processRestore_outcome env p c w0)).
  destruct (Rebuild p), (Restore p).
  - destruct (result (run env (processRebuild p c) w)); cbn [trace].
    + specialize (H1 w). lia.
    + rewrite calls_app, length_app.
      specialize (H1 w). specialize (H2 (world (run env (processRebuild p c) w))). lia.
  - destruct (result (run env (processRebuild p c) w)); cbn [trace];
      rewrite ?app_nil_r; specialize (H1 w); lia.
  - cbn [result trace world app]. specialize (H2 w). lia.
  - cbn. lia.
Qed.

(** X8. The default branch plays no part: with another [Default], [Exec]
    is the same program, so its runs are the same.  In particular the key
    of a mount is that of [Branch], also when [Branch] is empty. *)
Theorem Exec_ignores_Default (p : Plugin) (d : string) (w : W) :
  run env (Exec (with_Default p d)) w = run env (Exec p) w.
Proof.
  assert (E : Exec (with_Default p d) = Exec p); [|rewrite E; reflexivity].
  unfold Exec, processRebuild, processRestore.
  cbn [with_Default ACL Branch Bucket Encryption Endpoint Key Mount PathStyle
       Rebuild Region Repo Restore Secret].
  assert (Eb : forall c l, rebuild_mounts (with_Default p d) c l = rebuild_mounts p c l).
  { intros c l. induction l as [|m l IH]; [reflexivity|].
    cbn [rebuild_mounts]. rewrite IH. reflexivity. }
  assert (Es : forall c l, restore_mounts (with_Default p d) c l = restore_mounts p c l).
  { intros c l. induction l as [|m l IH]; [reflexivity|].
    cbn [restore_mounts]. rewrite IH. reflexivity. }
  rewrite Eb, Es. reflexivity.
Qed.

(** Every call keeps what the store holds. *)
Lemma run_keeps (stored : W -> string -> Prop) (K : keeps env stored)
  {A : Type} (m : Prog A) (w : W) (x : string) :
  stored w x -> stored (world (run env m w)) x.
Proof.
  revert w.
  induction m as [a|k IH|format args k IH|c src dst k IH|c src dst k IH];
    intros w Hx; cbn [run].
  - exact Hx.
  - pose proof (keeps_now env stored K w x Hx) as H.
    destruct (env_now env w) as [t w1]. apply IH, H.
  - apply IH, (keeps_log env stored K), Hx.
  - pose proof (keeps_upload env stored K c src dst w x Hx) as H.
    destruct (env_upload env c src dst w) as [r w1]. apply IH, H.
  - pose proof (keeps_download env stored K c src dst w x Hx) as H.
    destruct (env_download env c src dst w) as [r w1]. apply IH, H.
Qed.

Lemma rebuild_mounts_stores (stored : W -> string -> Prop) (K : keeps env stored)
  (p : Plugin) (c : provider.Provider) (mounts : list string) (w : W) :
  result (run env (rebuild_mounts p c mounts) w) = None ->
  Forall (stored (world (run env (rebuild_mounts p c mounts) w)))
         (map (remotePath p) mounts).
Proof.
  revert w. induction mounts as [|mount rest IH]; intros w; [constructor|].
  cbn [rebuild_mounts]. cbn zeta. fold (remotePath p mount).
  unfold log.Printf, cache.Upload. cbn [bind run].
  pose proof (stores_upload env stored K c mount (remotePath p mount)
                (env_log env "archiving directory <%s> to remote cache <%s>"
                   [AString mount; AString (remotePath p mount)] w)) as Hst.
  destruct (env_upload env c mount (remotePath p mount) _) as [[e|] w1];
    cbn [result world trace map]; [discriminate|].
  intros Hr. constructor.
  - apply (run_keeps stored K). apply Hst. reflexivity.
  - apply IH, Hr.
Qed.

Lemma restore_mounts_finds (stored : W -> string -> Prop) (K : keeps env stored)
  (p : Plugin) (c : provider.Provider) (mounts : list string) (w : W) :
  Forall (stored w) (map (remotePath p) mounts) ->
  result (run env (restore_mounts p c mounts) w) = None.
Proof.
  revert w. induction mounts as [|mount rest IH]; intros w Hall; [reflexivity|].
  cbn [map] in Hall. inversion Hall as [|? ? Hm Hrest]; subst.
  cbn [restore_mounts]. cbn zeta. fold (remotePath p mount).
  unfold log.Printf, cache.Download. cbn [bind run].
  set (w0 := env_log env _ _ w).
  assert (Hm0 : stored w0 (remotePath p mount)) by apply (keeps_log env stored K), Hm.
  pose proof (finds_download env stored K c (remotePath p mount) mount w0 Hm0) as Hf.
  assert (Hk : forall x, stored w x ->
                 stored (snd (env_download env c (remotePath p mount) mount w0)) x).
  { intros x Hx. apply (keeps_download env stored K), (keeps_log env stored K), Hx. }
  destruct (env_download env c (remotePath p mount) mount w0) as [r w1].
  cbn [fst snd] in Hf, Hk. subst r. cbn [result].
  apply IH. eapply Forall_impl; [|exact Hrest]. intros x Hx. apply Hk, Hx.
Qed.

(** X9. With a store that keeps what it is given, a run of [Exec] with
    both flags never fails in the restore pass: the downloads ask for the
    paths the uploads of the same run wrote.  Either the rebuild pass
    fails, or [Exec] returns [nil] and the store holds the remote path of
    every mount. *)
Theorem Exec_restores_what_it_built (stored : W -> string -> Prop)
  (p : Plugin) (w : W) :
  keeps env stored -> Rebuild p = true -> Restore p = true ->
  let o := run env (Exec p) w in
  (result o = None /\ Forall (stored (world o)) (map (remotePath p) (Mount p)))
  \/ (exists e, result o = Some (withMessage (withMessage e "could not upload")
                                             "process rebuild failed")).
Proof.
  intros K Hb Hs. cbn zeta. rewrite run_Exec. cbn zeta. rewrite Hb, Hs.
  set (c := Exec_provider p).
  (* the rebuild pass *)
  assert (H1 : result (run env (processRebuild p c) w) = None ->
               Forall (stored (world (run env (processRebuild p c) w)))
                      (map (remotePath p) (Mount p))).
  { unfold processRebuild, time.Now. cbn [bind run].
    destruct (env_now env w) as [t0 w0]. rewrite run_bind. cbn zeta.
    pose proof (rebuild_mounts_stores stored K p c (Mount p) w0) as Hl.
    destruct (result (run env (rebuild_mounts p c (Mount p)) w0)) as [e|];
      cbn [result world]; [discriminate|].
    intros _. eapply Forall_impl; [|apply Hl; reflexivity].
    intros x Hx. apply (run_keeps stored K), Hx. }
  (* the restore pass, from a world that holds every path *)
  assert (H2 : forall w1, Forall (stored w1) (map (remotePath p) (Mount p)) ->
               result (run env (processRestore p c) w1) = None /\
               Forall (stored (world (run env (processRestore p c) w1)))
                      (map (remotePath p) (Mount p))).
  { intros w1 Hall. split.
    - unfold processRestore, time.Now. cbn [bind run].
      pose proof (fun x => keeps_now env stored K w1 x) as Hn.
      destruct (env_now env w1) as [t0 w0]. cbn [snd] in Hn.
      rewrite run_bind. cbn zeta.
      rewrite (restore_mounts_finds stored K p c (Mount p) w0)
        by (eapply Forall_impl; [|exact Hall]; intros x Hx; apply Hn, Hx).
      unfold time.Since, log.Printf. cbn [bind run].
      destruct (env_now env _) as [t1 w2]. reflexivity.
    - eapply Forall_impl; [|exact Hall].
      intros x Hx. apply (run_keeps stored K), Hx. }
  destruct (processRebuild_outcome env p c w)
    as [[Hr1 _] | (pre & m & post & e & _ & Hr1 & _)]; rewrite Hr1.
  - left. cbn [result world].
    destruct (H2 _ (H1 Hr1)) as [Hr2 Hall]. rewrite Hr2. split; [reflexivity|exact Hall].
  - right. exists e. reflexivity.
Qed.

End ExecRuns.

(** ** The key of any number of parts *)

Lemma holds_parts (parts : list string) (d : md5.digest) (msg : list byte) :
  md5.holds d msg ->
  md5.holds (fold_left (fun h part => WriteString h part) parts d)
            (msg ++ flat_map list_byte_of_string parts)%list.
Proof.
  revert d msg. induction parts as [|part rest IH]; intros d msg H.
  - cbn [fold_left flat_map]. rewrite app_nil_r. exact H.
  - cbn [fold_left flat_map]. rewrite app_assoc. apply IH.
    apply md5_facts.holds_Write, H.
Qed.

Lemma concat_bytes (parts : list string) :
  list_byte_of_string (String.concat "" parts) = flat_map list_byte_of_string parts.
Proof.
  induction parts as [|part rest IH]; [reflexivity|].
  destruct rest as [|part' rest].
  - cbn [String.concat flat_map]. rewrite app_nil_r. reflexivity.
  - change (String.concat "" (part :: part' :: rest))
      with (part ++ "" ++ String.concat "" (part' :: rest)).
    rewrite list_byte_of_string_app. cbn [String.append].
    rewrite IH. reflexivity.
Qed.

(** X10. The loop of [hash] over its parts, run on any list of parts,
    gives the digest of their concatenation: how the bytes are cut into
    parts does not matter, only their sequence. *)
Theorem hash_loop_any_parts (parts : list string) :
  Sprintf_x (md5.Sum (fold_left (fun h part => WriteString h part) parts md5.New) [])
  = Sprintf_x (md5.digest_of (list_byte_of_string (String.concat "" parts))).
Proof.
  unfold md5.Sum. cbn [app]. f_equal.
  rewrite concat_bytes.
  apply md5_facts.checkSum_holds.
  apply (holds_parts parts md5.New [] md5_facts.holds_New).
Qed.

(** ** The shape of the remote path *)

Module remote_facts.
Import filepath.

Lemma Join_empty (k : string) : is_key k -> Join [""; k] = k.
Proof.
  intros Hk. pose proof Hk as [Hne Hhex].
  cbn [Join]. change ("" =? "") with true. cbv iota.
  destruct k as [|d k]; [congruence|].
  change (String d k =? "") with false. cbv iota.
  change (String.concat "/" [String d k]) with (String d k).
  unfold Clean.
  pose proof Hhex as Hhex'.
  cbn [list_ascii_of_string] in Hhex'. inversion Hhex' as [|? ? Hd _]; subst.
  rewrite (proj1 (filepath_facts.lower_hex_not d Hd)).
  rewrite (filepath_facts.elements_hex (String d k) Hhex).
  cbn [fold_left]. rewrite (filepath_facts.clean_element_key false [] _ Hk). reflexivity.
Qed.

Lemma elements_plain (r : string) :
  Forall (fun c => c <> Separator) (list_ascii_of_string r) -> elements r = [r].
Proof.
  induction r as [|c r IH]; intros H; [reflexivity|].
  cbn [list_ascii_of_string] in H. inversion H as [|? ? Hc Hr]; subst.
  cbn [elements]. rewrite (IH Hr).
  destruct (Ascii.eqb_spec c Separator); [contradiction|reflexivity].
Qed.

Lemma clean_element_plain (out : list string) (r : string) :
  plain r -> clean_element false out r = (out ++ [r])%list.
Proof.
  intros (H0 & H1 & H2 & _). unfold clean_element.
  apply String.eqb_neq in H0, H1, H2. rewrite H0, H1, H2. reflexivity.
Qed.

Lemma Join_plain (r k : string) :
  plain r -> is_key k -> Join [r; k] = r ++ "/" ++ k.
Proof.
  intros Hr Hk. pose proof Hr as (H0 & _ & _ & Hsep). pose proof Hk as [_ Hhex].
  cbn [Join]. apply String.eqb_neq in H0. rewrite H0.
  change (String.concat "/" [r; k]) with (r ++ String Separator k).
  destruct r as [|c r]; [discriminate H0|].
  unfold Clean. cbn [String.append].
  change (String c (r ++ String Separator k)) with (String c r ++ String Separator k).
  pose proof Hsep as Hsep'.
  cbn [list_ascii_of_string] in Hsep'. inversion Hsep' as [|? ? Hc _]; subst.
  destruct (Ascii.eqb_spec c Separator) as [|_]; [contradiction|].
  rewrite filepath_facts.elements_app, (elements_plain _ Hsep),
    (filepath_facts.elements_hex k Hhex).
  cbn [app fold_left].
  rewrite (clean_element_plain [] _ Hr), (filepath_facts.clean_element_key false _ k Hk).
  reflexivity.
Qed.

End remote_facts.


(** X12. With an empty repo namespace the remote path is the key itself. *)
Theorem remotePath_empty_repo (p : Plugin) (m : string) :
  Repo p = "" -> remotePath p m = hash m (Branch p).
Proof.
  intros H. unfold remotePath. rewrite H. apply remote_facts.Join_empty, hash_is_key.
Qed.

(** X13. With a repo namespace of one plain element (no separator, not
    empty, not [.] or [..]) the remote path is the namespace, a separator
    and the key. *)
Theorem remotePath_plain_repo (p : Plugin) (m : string) :
  plain (Repo p) -> remotePath p m = Repo p ++ "/" ++ hash m (Branch p).
Proof.
  intros H. apply remote_facts.Join_plain; [exact H|apply hash_is_key].
Qed.

(** ** Concrete runs of the further properties *)

Lemma memory_keeps : keeps memory.env (fun w x => In x (memory.objects w)).
Proof.
  constructor; cbn [memory.env env_now env_log env_upload env_download].
  - intros w x H. exact H.
  - intros f a w x H. exact H.
  - intros c src dst w x H. unfold memory.upload.
    destruct (src =? "missing"); cbn [snd memory.objects]; [exact H|right; exact H].
  - intros c src dst w. unfold memory.upload.
    destruct (src =? "missing"); cbn [fst snd memory.objects]; [discriminate|].
    intros _. left. reflexivity.
  - intros c src dst w x H. unfold memory.download.
    destruct (existsb (String.eqb src) (memory.objects w)); exact H.
  - intros c src dst w H. unfold memory.download.
    replace (existsb (String.eqb src) (memory.objects w)) with true; [reflexivity|].
    symmetry. apply existsb_exists. exists src. split; [exact H|apply String.eqb_refl].
Qed.

(** A rebuild of a directory that cannot be archived. *)
Lemma Exec_error_message_witness :
  let p := memory.plugin ["missing"] true false in
  let o := run memory.env (Exec p) memory.empty in
  let err := withMessage (withMessage (Failure ArchiveFailure "no such directory")
                                      "could not upload") "process rebuild failed" in
  result o = Some err /\
  Error err = "process rebuild failed: could not upload: no such directory" /\
  exists ev e,
    In ev (calls (trace o)) /\ answer ev = Some e /\
    errors.Cause err = errors.Cause e /\
    ((is_upload ev = true /\
      Error err = "process rebuild failed: could not upload: " ++ Error e)
     \/ (is_download ev = true /\
         Error err = "process restore failed: could not download: " ++ Error e)).
Proof.
  cbn zeta.
  assert (Hr : result (run memory.env (Exec (memory.plugin ["missing"] true false))
                         memory.empty)
               = Some (withMessage (withMessage (Failure ArchiveFailure "no such directory")
                                                "could not upload") "process rebuild failed"))
    by (vm_compute; reflexivity).
  split; [exact Hr|]. split; [reflexivity|].
  exact (Exec_error_message memory.env _ _ _ Hr).
Defined.

Lemma Exec_restore_only_witness :
  Forall (fun ev => is_download ev = true)
         (calls (trace (run memory.env (Exec (memory.plugin ["a"; "b"] false true))
                          memory.empty))).
Proof.
  apply (Exec_restore_only memory.env (memory.plugin ["a"; "b"] false true) memory.empty).
  reflexivity.
Defined.

Lemma Exec_rebuild_only_witness :
  Forall (fun ev => is_upload ev = true)
         (calls (trace (run memory.env (Exec (memory.plugin ["a"; "b"] true false))
                          memory.empty))).
Proof.
  apply (Exec_rebuild_only memory.env (memory.plugin ["a"; "b"] true false) memory.empty).
  reflexivity.
Defined.

Lemma Exec_restores_what_it_built_witness :
  let p := memory.plugin ["a"; "b"] true true in
  let o := run memory.env (Exec p) memory.empty in
  (result o = None /\
   Forall (fun x => In x (memory.objects (world o))) (map (remotePath p) (Mount p)))
  \/ (exists e, result o = Some (withMessage (withMessage e "could not upload")
                                             "process rebuild failed")).
Proof.
  cbn zeta.
  apply (Exec_restores_what_it_built memory.env
           (fun w x => In x (memory.objects w))
           (memory.plugin ["a"; "b"] true true) memory.empty memory_keeps);
    reflexivity.
Defined.

Lemma remotePath_empty_repo_witness :
  let p := mkPlugin "private" "main" "bucket" "master" "" "" "" ["./dist"]
                    false true "eu-west-1" "" true "" in
  remotePath p "./dist" = hash "./dist" "main".
Proof.
  cbn zeta.
  apply (remotePath_empty_repo
           (mkPlugin "private" "main" "bucket" "master" "" "" "" ["./dist"]
                     false true "eu-west-1" "" true "") "./dist").
  reflexivity.
Defined.

Lemma remotePath_plain_repo_witness :
  let p := memory.plugin ["./dist"] true true in
  remotePath p "./dist" = "myrepo" ++ "/" ++ hash "./dist" "main".
Proof.
  cbn zeta.
  apply (remotePath_plain_repo (memory.plugin ["./dist"] true true) "./dist").
  split; [discriminate|]. split; [discriminate|]. split; [discriminate|].
  repeat constructor; discriminate.
Defined.
